(** * timelapse-url: the capture / session / assembly pipeline of [server.js]

    A shallow embedding of the request handlers of [server.js] and of the
    helper functions they call, followed by the properties of the pipeline.

    Conventions of the embedding.
    - JavaScript strings are [string]s (one [ascii] per code unit, so code
      units below 256), buffers are lists of bytes.
    - JavaScript integers that the code prints into or parses out of file
      names are [Z].  This is exact for the integers that a number holds
      exactly, those below 2^53 in absolute value, which include the counter
      and every reading of [Date.now()]; statements about timestamps read
      from arbitrary file names carry that bound.
    - The speed multiplier of a regeneration request is a rational and the
      division by it is exact, where the code divides doubles: the two differ
      for the speeds whose double quotient is rounded onto a half.
    - The file system is a finite map from directory paths to directories, a
      directory a finite map from file names to contents.  A path built with
      [path.join(dir, name)] is the pair of [dir] and [name].  The disk is
      without faults: an operation fails only for a file or a directory that
      does not exist, so permissions, a full disk and a failing output stream
      have no counterpart here.
    - An [async] function that can reject returns a [Result]; a function
      that changes the disk takes the file system and returns the new one.
    - What the server reads from its environment (the HTTP exchange with the
      origin, the clock, the random session identifier) is an argument of
      the handler that reads it. *)

From Stdlib Require Import ZArith QArith Qround Lia Lqa List String Ascii Strings.Byte.
From Stdlib Require Import Sorting.Sorted Sorting.Permutation.
From stdpp Require Import base option list strings gmap fin_maps.

Open Scope Z_scope.

(** ** Buffers *)

Abbreviation bytes := (list byte).

#[global] Instance byte_eq_decision : EqDecision byte := byte_eq_dec.

(** [buffer1.equals(buffer2)] *)
Definition Buffer_equals (b1 b2 : bytes) : bool := bool_decide (b1 = b2).

(** [Buffer.concat(chunks)] *)
Definition Buffer_concat (chunks : list bytes) : bytes := concat chunks.

(** ** Results of functions that can throw or reject *)

Inductive Result (A : Type) : Type :=
| Ok (a : A)
| Err (message : string).
Arguments Ok {A} a.
Arguments Err {A} message.

Definition is_ok {A} (r : Result A) : bool :=
  match r with Ok _ => true | Err _ => false end.

(** ** The JavaScript string and number primitives the server uses *)

Module Js.

(** [s.startsWith(p)] *)
Definition startsWith (s p : string) : bool := String.prefix p s.

(** [s.endsWith(suffix)] *)
Fixpoint endsWith (s suffix : string) : bool :=
  String.eqb s suffix ||
  match s with
  | EmptyString => false
  | String _ s' => endsWith s' suffix
  end.

Fixpoint drop (n : nat) (s : string) : string :=
  match n, s with
  | O, _ => s
  | S n', String _ s' => drop n' s'
  | S _, EmptyString => EmptyString
  end.

(** [s.replace(pattern, replacement)] with a string pattern: only the
    first occurrence is replaced. *)
Fixpoint replace (s pattern replacement : string) : string :=
  if String.prefix pattern s
  then replacement +:+ drop (String.length pattern) s
  else match s with
       | EmptyString => EmptyString
       | String c s' => String c (replace s' pattern replacement)
       end.

(** [s.split(sep)] for a one-character separator; the result is never
    empty. *)
Fixpoint split (s : string) (sep : ascii) : list string :=
  match s with
  | EmptyString => [EmptyString]
  | String c s' =>
      if Ascii.eqb c sep then EmptyString :: split s' sep
      else match split s' sep with
           | p :: ps => String c p :: ps
           | [] => [String c EmptyString]
           end
  end.

(** [s.substring(0, n)] *)
Fixpoint take (n : nat) (s : string) : string :=
  match n, s with
  | S n', String c s' => String c (take n' s')
  | _, _ => EmptyString
  end.

Definition code (c : ascii) : Z := Z.of_nat (nat_of_ascii c).

(** White space skipped by [parseInt], among the code units below 256:
    tab, line feed, vertical tab, form feed, carriage return, space and the
    no-break space U+00A0. *)
Definition is_white_space (c : ascii) : bool :=
  ((9 <=? code c) && (code c <=? 13)) || (code c =? 32) || (code c =? 160).

Fixpoint skip_white_space (s : string) : string :=
  match s with
  | String c s' => if is_white_space c then skip_white_space s' else s
  | EmptyString => EmptyString
  end.

(** The value of [c] as a digit in the given radix, if it is one. *)
Definition digit_value (radix : Z) (c : ascii) : option Z :=
  let n := code c in
  let v := if (48 <=? n) && (n <=? 57) then Some (n - 48)
           else if (97 <=? n) && (n <=? 122) then Some (n - 87)
           else if (65 <=? n) && (n <=? 90) then Some (n - 55)
           else None in
  match v with
  | Some d => if d <? radix then Some d else None
  | None => None
  end.

(** The longest prefix of digits, read most significant digit first;
    [acc] is [None] as long as no digit was read. *)
Fixpoint parse_digits (radix : Z) (s : string) (acc : option Z) : option Z :=
  match s with
  | EmptyString => acc
  | String c s' =>
      match digit_value radix c with
      | Some d =>
          parse_digits radix s'
            (Some (match acc with Some a => a * radix + d | None => d end))
      | None => acc
      end
  end.

(** [parseInt(s)] without a radix argument; [None] is [NaN]. *)
Definition parseInt (s : string) : option Z :=
  let s1 := skip_white_space s in
  let '(sign, s2) :=
    match s1 with
    | String "-" r => (-1, r)
    | String "+" r => (1, r)
    | _ => (1, s1)
    end in
  let '(radix, s3) :=
    match s2 with
    | String "0" (String "x" r) => (16, r)
    | String "0" (String "X" r) => (16, r)
    | _ => (10, s2)
    end in
  Z.mul sign <$> parse_digits radix s3 None.

Definition digit_char (d : Z) : ascii := ascii_of_nat (Z.to_nat (48 + d)).

(** The decimal digits of a non-negative integer, least significant digit
    first onto [acc]; [fuel] bounds the number of digits. *)
Fixpoint digits_of (fuel : nat) (n : Z) (acc : string) : string :=
  let acc' := String (digit_char (n mod 10)) acc in
  match fuel with
  | O => acc'
  | S fuel' => if n / 10 =? 0 then acc' else digits_of fuel' (n / 10) acc'
  end.

(** [String(n)] for an integer [n]. *)
Definition String_of (n : Z) : string :=
  if n <? 0
  then String "-" (digits_of (Z.to_nat (Z.log2 (- n))) (- n) EmptyString)
  else digits_of (Z.to_nat (Z.log2 n)) n EmptyString.

Fixpoint repeat_char (c : ascii) (n : nat) : string :=
  match n with
  | O => EmptyString
  | S n' => String c (repeat_char c n')
  end.

(** [s.padStart(targetLength, c)] for a one-character filler. *)
Definition padStart (s : string) (targetLength : nat) (c : ascii) : string :=
  repeat_char c (targetLength - String.length s) +:+ s.

(** [Math.round(q)]: the nearest integer, halves towards plus infinity. *)
Definition Math_round (q : Q) : Z := Qfloor (q + (1 # 2))%Q.

End Js.

(** ** The collaborators of the pipeline

    The hash, the date formatter, the JSON printer, the image library and
    the animation encoder are used through what the server asks of them. *)

(** What the server has told the GIF encoder, and whether [finish] was
    reached. *)
Record Gif := {
  gif_width : Z;
  gif_height : Z;
  gif_repeat : Z;
  gif_delay : Z;
  gif_quality : Z;
  gif_frames : list bytes;
  gif_finished : bool
}.

Class Runtime := {
  (** [crypto.createHash('md5').update(url).digest('hex')] *)
  md5_hex : string -> string;
  (** [new Date(ms).toISOString()] *)
  toISOString : Z -> string;
  (** [JSON.stringify({ url, createdAt }, null, 2)], as bytes *)
  JSON_stringify_metadata : string -> string -> bytes;
  (** [sharp(file).metadata()]: width and height, or the rejection *)
  sharp_metadata : bytes -> Result (Z * Z);
  (** [sharp(file).resize(width, height, { fit: 'contain', background:
      black }).ensureAlpha().raw().toBuffer()] *)
  sharp_raw : Z -> Z -> bytes -> Result bytes;
  (** the bytes the encoder's read stream has emitted for these calls *)
  gif_stream : Gif -> bytes
}.

(** ** The file system *)

Abbreviation Dir := (gmap string bytes).
Abbreviation FS := (gmap string (gmap string bytes)).

Definition ENOENT : string := "ENOENT: no such file or directory".

(** [path.join(dir, name)], where a path is shown to a caller *)
Definition path_join (dir name : string) : string := dir +:+ "/" +:+ name.

(** The contents of the file [name] of the directory [dir], if there is
    one. *)
Definition fs_file (fs : FS) (dir name : string) : option bytes :=
  fs !! dir ≫= (.!! name).

(** [fs.access(path.join(dir, name))] *)
Definition fs_access (fs : FS) (dir name : string) : Result unit :=
  match fs_file fs dir name with
  | Some _ => Ok tt
  | None => Err ENOENT
  end.

(** [fs.readFile(path.join(dir, name))] *)
Definition fs_readFile (fs : FS) (dir name : string) : Result bytes :=
  match fs_file fs dir name with
  | Some data => Ok data
  | None => Err ENOENT
  end.

(** [fs.writeFile(path.join(dir, name), data)]: creates or replaces the
    file; rejects when the directory does not exist. *)
Definition fs_writeFile (fs : FS) (dir name : string) (data : bytes) : Result FS :=
  match fs !! dir with
  | Some d => Ok (<[dir := <[name := data]> d]> fs)
  | None => Err ENOENT
  end.

(** [fs.readdir(dir)]: the names in the directory, in the order the
    directory enumerates them. *)
Definition fs_readdir (fs : FS) (dir : string) : Result (list string) :=
  match fs !! dir with
  | Some d => Ok (map_to_list d).*1
  | None => Err ENOENT
  end.

(** [ensureDir(dir)]: [fs.access(dir)], and [fs.mkdir(dir, { recursive:
    true })] when that rejects. *)
Definition ensureDir (fs : FS) (dir : string) : FS :=
  match fs !! dir with
  | Some _ => fs
  | None => <[dir := ∅]> fs
  end.

(** [sharp(path.join(dir, name))]: the input of an image operation, or the
    rejection of the image library when the file does not exist. *)
Definition sharp_input (fs : FS) (dir name : string) : Result bytes :=
  match fs_file fs dir name with
  | Some data => Ok data
  | None => Err ("Input file is missing: " +:+ path_join dir name)
  end.

(** ** [imagesAreIdentical] *)

Definition imagesAreIdentical (fs : FS) (dir imageName1 imageName2 : string) : bool :=
  match fs_readFile fs dir imageName1 with
  | Ok buffer1 =>
      match fs_readFile fs dir imageName2 with
      | Ok buffer2 => Buffer_equals buffer1 buffer2
      | Err _ => false
      end
  | Err _ => false
  end.

(** ** [urlToDirectory] *)

Definition is_alnum (c : ascii) : bool :=
  let n := Js.code c in
  ((48 <=? n) && (n <=? 57)) || ((65 <=? n) && (n <=? 90)) || ((97 <=? n) && (n <=? 122)).

Fixpoint map_string (f : ascii -> ascii) (s : string) : string :=
  match s with
  | EmptyString => EmptyString
  | String c s' => String (f c) (map_string f s')
  end.

(** [url.replace(/^https?:\/\//, '')] *)
Definition strip_scheme (url : string) : string :=
  if String.prefix "http://" url then Js.drop 7 url
  else if String.prefix "https://" url then Js.drop 8 url
  else url.

Definition urlToDirectory `{Runtime} (url : string) : string :=
  let hash := Js.take 8 (md5_hex url) in
  let sanitized :=
    Js.take 30 (map_string (fun c => if is_alnum c then c else "_"%char) (strip_scheme url)) in
  sanitized +:+ "_" +:+ hash.

(** ** [loadExistingSession] *)

(** [getTimestamp] of the comparator: the text after the last underscore of
    the name without its first [.png], as [parseInt] reads it. *)
Definition getTimestamp (filename : string) : option Z :=
  let parts := Js.split (Js.replace filename ".png" "") "_"%char in
  Js.parseInt (List.last parts EmptyString).

(** The comparator given to [sort]; [None] is [NaN]. *)
Definition compareTimestamps (a b : string) : option Z :=
  match getTimestamp a, getTimestamp b with
  | Some ta, Some tb => Some (ta - tb)
  | _, _ => None
  end.

(** [Array.prototype.sort(comparefn)].  The sort is stable, and a [NaN]
    from the comparator counts as [0].  For a comparator that orders the
    array consistently there is one stable sorted arrangement, which
    insertion from the right computes. *)
Section Sort.
Context {A : Type} (comparefn : A -> A -> option Z).

Definition sortCompare (x y : A) : Z := default 0 (comparefn x y).

Fixpoint sort_insert (x : A) (l : list A) : list A :=
  match l with
  | [] => [x]
  | y :: l' => if sortCompare x y <=? 0 then x :: y :: l' else y :: sort_insert x l'
  end.

Fixpoint Array_sort (l : list A) : list A :=
  match l with
  | [] => []
  | x :: l' => sort_insert x (Array_sort l')
  end.
End Sort.

(** The filter of [loadExistingSession] *)
Definition isFrameFile (f : string) : bool :=
  Js.startsWith f "image_" && Js.endsWith f ".png".

Record ExistingData := {
  existing_images : list string;
  existing_captureCount : nat
}.

Definition loadExistingSession (fs : FS) (sessionDir : string) : ExistingData :=
  match fs_readdir fs sessionDir with
  | Ok files =>
      let imageFiles := Array_sort compareTimestamps (filter (fun f => isFrameFile f = true) files) in
      {| existing_images := imageFiles; existing_captureCount := length imageFiles |}
  | Err _ =>
      {| existing_images := []; existing_captureCount := 0 |}
  end.

(** ** [saveMetadata] *)

Definition saveMetadata `{Runtime} (fs : FS) (sessionDir url : string) (now : Z) : Result FS :=
  match fs_access fs sessionDir "metadata.json" with
  | Ok _ => Ok fs
  | Err _ =>
      fs_writeFile fs sessionDir "metadata.json"
        (JSON_stringify_metadata url (toISOString now))
  end.

(** ** [fetchImage] *)

Inductive Protocol := https | http.

(** What happens to one [protocol.get(url, options, callback)]: the request
    emits ['error'] (no connection, or [get] itself throws), or the callback
    receives a response with a status code, whose stream delivers chunks
    and then emits ['end'] or ['error']. *)
Inductive HttpExchange :=
| RequestError (message : string)
| HttpResponse (statusCode : Z) (chunks : list bytes) (streamError : option string).

Abbreviation Network := (Protocol -> string -> HttpExchange).

Definition protocolOf (url : string) : Protocol :=
  if Js.startsWith url "https" then https else http.

Definition fetchImage (net : Network) (url : string) : Result bytes :=
  let protocol := protocolOf url in
  match net protocol url with
  | RequestError message => Err message
  | HttpResponse _ chunks None => Ok (Buffer_concat chunks)
  | HttpResponse _ _ (Some message) => Err message
  end.

(** ** [generateGif] *)

(** The loop over [images]: [previousImagePath] is the last image that was
    added, [frames] what [encoder.addFrame] has received so far.  Returns
    the frames added and how the loop ended. *)
Fixpoint addFrames `{Runtime} (fs : FS) (sessionDir : string) (width height : Z)
    (images : list string) (previousImagePath : option string) (frames : list bytes)
    : list bytes * Result unit :=
  match images with
  | [] => (frames, Ok tt)
  | imageName :: rest =>
      if match previousImagePath with
         | Some previous => imagesAreIdentical fs sessionDir imageName previous
         | None => false
         end
      then addFrames fs sessionDir width height rest previousImagePath frames
      else
        match sharp_input fs sessionDir imageName with
        | Err message => (frames, Err message)
        | Ok data =>
            match sharp_raw width height data with
            | Err message => (frames, Err message)
            | Ok imageBuffer =>
                addFrames fs sessionDir width height rest (Some imageName)
                  (frames ++ [imageBuffer])
            end
        end
  end.

(** The encoder's calls for a run of the loop. *)
Definition encoded (width height delay : Z) (loop : list bytes * Result unit) : Gif :=
  {| gif_width := width; gif_height := height;
     gif_repeat := 0; gif_delay := delay; gif_quality := 10;
     gif_frames := loop.1; gif_finished := is_ok loop.2 |}.

(** [generateGif(sessionDir, images, delay)].  [Ok None] is the [null] of
    an empty list, [Ok (Some p)] the path of the finished artifact.  The
    write stream is opened after the first image was read in the same
    directory; it holds what the encoder emitted, also when the loop
    throws. *)
Definition generateGif `{Runtime} (fs : FS) (sessionDir : string) (images : list string)
    (delay : Z) : FS * Result (option string) :=
  match images with
  | [] => (fs, Ok None)
  | firstImage :: _ =>
      match sharp_input fs sessionDir firstImage with
      | Err message => (fs, Err message)
      | Ok firstData =>
          match sharp_metadata firstData with
          | Err message => (fs, Err message)
          | Ok (width, height) =>
              let loop := addFrames fs sessionDir width height images None [] in
              let fs' :=
                match fs_writeFile fs sessionDir "timelapse.gif"
                        (gif_stream (encoded width height delay loop)) with
                | Ok fs' => fs'
                | Err _ => fs
                end in
              match loop.2 with
              | Ok _ => (fs', Ok (Some (path_join sessionDir "timelapse.gif")))
              | Err message => (fs', Err message)
              end
          end
      end
  end.

(** ** Sessions and requests *)

Record Session := {
  url : string;
  dirName : string;
  sessionDir : string;
  images : list string;
  captureCount : nat
}.

(** The disk and the [sessions] map. *)
Record World := {
  disk : FS;
  sessions : gmap string Session
}.

Inductive Response :=
| StartResponse (sessionId dirName : string) (existingImages : nat) (continuing : bool)
| CaptureResponse (success : bool) (imageCount : nat) (latestImage : option string)
    (duplicate : bool)
| SessionResponse (url dirName : string) (imageCount : nat) (latestImage : option string)
| GenerateResponse (success : bool)
| ErrorResponse (status : Z) (error : string).

(** The name of a new frame file:
    [`image_${String(captureCount).padStart(5, '0')}_${timestamp}.png`] *)
Definition imageName (captureCount : nat) (timestamp : Z) : string :=
  "image_" +:+ Js.padStart (Js.String_of (Z.of_nat captureCount)) 5 "0"
  +:+ "_" +:+ Js.String_of timestamp +:+ ".png".

(** [POST /api/start].  [body_url] is [req.body.url], [sessionId] the
    sixteen random bytes in hexadecimal, [now] the clock.  No response
    ([None]) when an awaited call rejects: the handler has no [catch]. *)
Definition start `{Runtime} (body_url : option string) (sessionId : string) (now : Z)
    (w : World) : World * option Response :=
  match body_url with
  | None | Some EmptyString => (w, Some (ErrorResponse 400 "URL is required"))
  | Some url =>
      let dirName := urlToDirectory url in
      let sessionDir := path_join "captures" dirName in
      let fs1 := ensureDir (disk w) sessionDir in
      match saveMetadata fs1 sessionDir url now with
      | Err _ => ({| disk := fs1; sessions := sessions w |}, None)
      | Ok fs2 =>
          let existingData := loadExistingSession fs2 sessionDir in
          ({| disk := fs2;
              sessions :=
                <[sessionId := {| url := url; dirName := dirName; sessionDir := sessionDir;
                                  images := existing_images existingData;
                                  captureCount := existing_captureCount existingData |}]>
                  (sessions w) |},
           Some (StartResponse sessionId dirName (existing_captureCount existingData)
                   (0 <? existing_captureCount existingData)%nat))
      end
  end.

Definition captureFailed (message : string) : Response :=
  ErrorResponse 500 ("Failed to capture image: " +:+ message).

(** [POST /api/capture/:sessionId].  [net] is the network at the time of the
    fetch, [now] is [Date.now()]. *)
Definition capture `{Runtime} (sessionId : string) (net : Network) (now : Z)
    (w : World) : World * Response :=
  match sessions w !! sessionId with
  | None => (w, ErrorResponse 404 "Session not found")
  | Some session =>
      match fetchImage net (url session) with
      | Err message => (w, captureFailed message)
      | Ok imageBuffer =>
          match
            match last (images session) with
            | Some lastImage =>
                match fs_readFile (disk w) (sessionDir session) lastImage with
                | Ok lastImageBuffer => Ok (Buffer_equals imageBuffer lastImageBuffer)
                | Err message => Err message
                end
            | None => Ok false
            end
          with
          | Err message => (w, captureFailed message)
          | Ok true =>
              (w, CaptureResponse true (length (images session)) (last (images session)) true)
          | Ok false =>
              let timestamp := now in
              let imageName := imageName (captureCount session) timestamp in
              match fs_writeFile (disk w) (sessionDir session) imageName imageBuffer with
              | Err message => (w, captureFailed message)
              | Ok fs1 =>
                  let session' :=
                    {| url := url session; dirName := dirName session;
                       sessionDir := sessionDir session;
                       images := images session ++ [imageName];
                       captureCount := S (captureCount session) |} in
                  let '(fs2, generated) :=
                    generateGif fs1 (sessionDir session') (images session') 500 in
                  let w' := {| disk := fs2;
                               sessions := <[sessionId := session']> (sessions w) |} in
                  match generated with
                  | Err message => (w', captureFailed message)
                  | Ok _ =>
                      (w', CaptureResponse true (length (images session'))
                             (last (images session')) false)
                  end
              end
          end
      end
  end.

(** [GET /api/session/:sessionId] *)
Definition sessionInfo (sessionId : string) (w : World) : Response :=
  match sessions w !! sessionId with
  | None => ErrorResponse 404 "Session not found"
  | Some session =>
      SessionResponse (url session) (dirName session) (length (images session))
        (last (images session))
  end.

(** [Math.round(baseDelay / (speed || 1))]; [speed] is [None] when the body
    has none, and [0] is falsy. *)
Definition gifDelay (speed : option Q) : Z :=
  let baseDelay := 500%Q in
  let divisor := match speed with
                 | Some q => if Qeq_bool q 0 then 1%Q else q
                 | None => 1%Q
                 end in
  Js.Math_round (baseDelay / divisor)%Q.

(** [POST /api/generate-gif/:sessionId] *)
Definition generate_gif `{Runtime} (sessionId : string) (speed : option Q)
    (w : World) : World * Response :=
  match sessions w !! sessionId with
  | None => (w, ErrorResponse 404 "Session not found")
  | Some session =>
      let delay := gifDelay speed in
      let '(fs', generated) := generateGif (disk w) (sessionDir session) (images session) delay in
      let w' := {| disk := fs'; sessions := sessions w |} in
      match generated with
      | Ok _ => (w', GenerateResponse true)
      | Err _ => (w', ErrorResponse 500 "Failed to generate GIF")
      end
  end.

(** The requests of the API, each with what its handler reads from the
    environment. *)
Inductive Request :=
| PostStart (body_url : option string) (sessionId : string) (now : Z)
| PostCapture (sessionId : string) (net : Network) (now : Z)
| GetSession (sessionId : string)
| PostGenerateGif (sessionId : string) (speed : option Q).

Definition handle `{Runtime} (w : World) (r : Request) : World * option Response :=
  match r with
  | PostStart body_url sessionId now => start body_url sessionId now w
  | PostCapture sessionId net now =>
      let '(w', response) := capture sessionId net now w in (w', Some response)
  | GetSession sessionId => (w, Some (sessionInfo sessionId w))
  | PostGenerateGif sessionId speed =>
      let '(w', response) := generate_gif sessionId speed w in (w', Some response)
  end.

(** The server serving requests one after the other. *)
Fixpoint serve `{Runtime} (w : World) (requests : list Request) : World :=
  match requests with
  | [] => w
  | r :: rest => serve (handle w r).1 rest
  end.

(** ** Notions used to state the properties *)

(** Every character of [s] satisfies [p]. *)
Fixpoint string_forall (p : ascii -> bool) (s : string) : bool :=
  match s with
  | EmptyString => true
  | String c s' => p c && string_forall p s'
  end.

Definition is_digit (c : ascii) : bool := (48 <=? Js.code c) && (Js.code c <=? 57).

Definition char_is_not (x c : ascii) : bool := negb (Ascii.eqb c x).

(** The session after a capture has stored the frame [name]. *)
Definition recordCapture (s : Session) (name : string) : Session :=
  {| url := url s; dirName := dirName s; sessionDir := sessionDir s;
     images := images s ++ [name]; captureCount := S (captureCount s) |}.

(** A run of captures of one session against the same network, one per
    clock reading. *)
Definition captures (sessionId : string) (net : Network) (clock : list Z) : list Request :=
  map (PostCapture sessionId net) clock.

(** Captures of one session, each with its network and its clock reading. *)
Definition captureRequests (sessionId : string) (steps : list (Network * Z)) : list Request :=
  map (fun step => PostCapture sessionId step.1 step.2) steps.

(** In every session the counter is the length of the frame sequence. *)
Definition countMatches (w : World) : Prop :=
  forall sessionId s, sessions w !! sessionId = Some s -> captureCount s = length (images s).

(** The walk of the assembly as the specification words it: a frame equal
    to the previously accepted frame is skipped, any other frame is accepted
    and becomes the previously accepted one. *)
Fixpoint collapse (previous : option bytes) (frames : list bytes) : list bytes :=
  match frames with
  | [] => []
  | frame :: rest =>
      if bool_decide (previous = Some frame) then collapse previous rest
      else frame :: collapse (Some frame) rest
  end.

(** The frames an assembly adds for the accepted file contents: each one
    decoded and normalized to the canvas. *)
Definition normalized `{Runtime} (width height : Z) (contents frames : list bytes) : Prop :=
  Forall2 (fun data frame => sharp_raw width height data = Ok frame) contents frames.

(** The image files [names] of the directory hold [contents]. *)
Definition stored_as (fs : FS) (dir : string) (names : list string) (contents : list bytes)
    : Prop :=
  Forall2 (fun name data => fs_file fs dir name = Some data) names contents.

(** The recognized frame files of a directory on disk. *)
Definition frameFiles (fs : FS) (dir : string) : gset string :=
  filter (fun f => isFrameFile f = true) (dom (default ∅ (fs !! dir))).

(** The order of two file names by the timestamps in them. *)
Definition timestamp_le (a b : string) : Prop :=
  exists ta tb, getTimestamp a = Some ta /\ getTimestamp b = Some tb /\ ta <= tb.

(** The server as it boots: no session. *)
Definition boot (fs : FS) : World := {| disk := fs; sessions := ∅ |}.

(** A runtime to evaluate the handlers with: every non-empty buffer is a
    4x3 image that is its own pixel data, and the encoder's stream is the
    concatenation of the frames. *)
Definition test_runtime : Runtime :=
  {| md5_hex := fun _ => "9e107d9d372bb6826bd81d3542a419d6"%string;
     toISOString := Js.String_of;
     JSON_stringify_metadata := fun url createdAt => list_byte_of_string (url +:+ createdAt);
     sharp_metadata := fun data =>
       match data with
       | [] => Err "Input buffer is empty"
       | _ => Ok (4, 3)
       end;
     sharp_raw := fun _ _ data =>
       match data with
       | [] => Err "Input buffer is empty"
       | _ => Ok data
       end;
     gif_stream := fun g => concat (gif_frames g) |}.

(** What the duplicate check of a capture finds for the fetched bytes. *)
Definition lastFrameIs (w : World) (s : Session) (data : bytes) : Prop :=
  exists lastImage, last (images s) = Some lastImage /\
                    fs_file (disk w) (sessionDir s) lastImage = Some data.

Definition lastFrameDiffers (w : World) (s : Session) (data : bytes) : Prop :=
  match last (images s) with
  | None => True
  | Some lastImage =>
      exists other, fs_file (disk w) (sessionDir s) lastImage = Some other /\ other ≠ data
  end.

(** Every capture takes one of four paths: the session is unknown; the
    capture fails before anything is written; the bytes are a duplicate;
    the frame is written and recorded, and then the animation is
    assembled. *)
Inductive CapturePath `{Runtime} (sessionId : string) (net : Network) (now : Z) (w : World)
    : World -> Response -> Prop :=
| path_unknown :
    sessions w !! sessionId = None ->
    CapturePath sessionId net now w w (ErrorResponse 404 "Session not found")
| path_failed s message :
    sessions w !! sessionId = Some s ->
    CapturePath sessionId net now w w (captureFailed message)
| path_duplicate s data :
    sessions w !! sessionId = Some s ->
    fetchImage net (url s) = Ok data ->
    lastFrameIs w s data ->
    CapturePath sessionId net now w w
      (CaptureResponse true (length (images s)) (last (images s)) true)
| path_stored s data fs1 response :
    sessions w !! sessionId = Some s ->
    fetchImage net (url s) = Ok data ->
    fs_writeFile (disk w) (sessionDir s) (imageName (captureCount s) now) data = Ok fs1 ->
    let s' := recordCapture s (imageName (captureCount s) now) in
    (response = CaptureResponse true (length (images s'))
                  (Some (imageName (captureCount s) now)) false \/
     exists message, response = captureFailed message) ->
    CapturePath sessionId net now w
      {| disk := (generateGif fs1 (sessionDir s) (images s') 500).1;
         sessions := <[sessionId := s']> (sessions w) |}
      response.

(** A world to evaluate the handlers in: the server after one start for a
    camera URL on an empty disk, and after one capture of the bytes
    [frame_A]. *)
Definition camera_url : string := "http://example.com/cam.png".

Definition frame_A : bytes := list_byte_of_string "frame A".
Definition frame_B : bytes := list_byte_of_string "frame B".

(** The origin answers 200 with the given body. *)
Definition origin_serves (body : bytes) : Network :=
  fun _ _ => HttpResponse 200 [body] None.

(** The origin answers 404, with a placeholder image as the body. *)
Definition placeholder : bytes := list_byte_of_string "placeholder image".

Definition origin_not_found : Network :=
  fun _ _ => HttpResponse 404 [placeholder] None.

(** The origin cannot be reached. *)
Definition origin_down : Network :=
  fun _ _ => RequestError "connect ECONNREFUSED".

Definition started_world : World :=
  (@start test_runtime (Some camera_url) "s1" 1700000000000 (boot ∅)).1.

Definition captured_world : World :=
  (@capture test_runtime "s1" (origin_serves frame_A) 1700000030000 started_world).1.

(** A directory whose four frames hold the bytes A, A, B, A. *)
Definition abba_names : list string :=
  ["image_00000_1000.png"; "image_00001_2000.png"; "image_00002_3000.png";
   "image_00003_4000.png"]%string.

Definition abba_disk : FS :=
  {[ "captures/abba"%string :=
       list_to_map (zip abba_names [frame_A; frame_A; frame_B; frame_A]) ]}.

(** A directory whose frames sort differently by name and by timestamp,
    next to files that are no frames. *)
Definition resumed_disk : FS :=
  {[ "captures/example_com_cam_png_9e107d9d"%string :=
       list_to_map
         [("image_00001_1000.png"%string, frame_A);
          ("image_00000_2000.png"%string, frame_B);
          ("image_00000_900.png"%string, frame_B);
          ("metadata.json"%string, list_byte_of_string "{}");
          ("timelapse.gif"%string, frame_A)] ]}.

(** The server after a start that resumes [resumed_disk]: the last frame of
    the session holds [frame_B]. *)
Definition resumed_world : World :=
  (@start test_runtime (Some camera_url) "s1" 1700000000000 (boot resumed_disk)).1.

(** ** Notions used to state further properties *)

(** The replacement of [urlToDirectory]: [/[^a-zA-Z0-9]/g] becomes an
    underscore. *)
Definition sanitize (c : ascii) : ascii := if is_alnum c then c else "_"%char.

(** A character of a sanitized directory name. *)
Definition is_dir_char (c : ascii) : bool := is_alnum c || Ascii.eqb c "_".

(** Each buffer differs from the one before it. *)
Fixpoint changing (datas : list bytes) : Prop :=
  match datas with
  | d1 :: rest =>
      match rest with
      | d2 :: _ => d1 ≠ d2
      | [] => True
      end /\ changing rest
  | [] => True
  end.

(** The names of the frames that captures at the given clock readings
    store, the first one with the index [count]. *)
Fixpoint frameNames (count : nat) (clock : list Z) : list string :=
  match clock with
  | [] => []
  | timestamp :: rest => imageName count timestamp :: frameNames (S count) rest
  end.

(** A request that does not register a session under [sessionId]. *)
Definition keepsSession (sessionId : string) (r : Request) : Prop :=
  match r with
  | PostStart _ sessionId' _ => sessionId' ≠ sessionId
  | _ => True
  end.

(** Every frame that a session lists is a recognized frame file of the
    session's directory. *)
Definition framesOnDisk (w : World) : Prop :=
  forall sessionId s f,
    sessions w !! sessionId = Some s -> f ∈ images s ->
    f ∈ frameFiles (disk w) (sessionDir s).

(** The integers that a JavaScript number holds exactly. *)
Definition safe_integer (t : Z) : Prop := - 2 ^ 53 < t < 2 ^ 53.



(** * Properties *)

(** ** Strings and numbers *)

Lemma string_app_assoc (a b c : string) : (a +:+ b) +:+ c = a +:+ (b +:+ c).
Proof.
  induction a as [|x a IH]; [reflexivity|].
  change (String x ((a +:+ b) +:+ c) = String x (a +:+ (b +:+ c))).
  f_equal. exact IH.
Qed.

Lemma string_app_nil_r (s : string) : s +:+ EmptyString = s.
Proof.
  induction s as [|x s IH]; [reflexivity|].
  change (String x (s +:+ EmptyString) = String x s). f_equal. exact IH.
Qed.

Lemma string_forall_app p a b :
  string_forall p (a +:+ b) = string_forall p a && string_forall p b.
Proof.
  induction a as [|c a IH]; simpl; [reflexivity|].
  rewrite IH. apply andb_assoc.
Qed.

Lemma string_forall_impl (p q : ascii -> bool) s :
  (forall c, p c = true -> q c = true) ->
  string_forall p s = true -> string_forall q s = true.
Proof.
  intros Hpq. induction s as [|c s IH]; simpl; [reflexivity|].
  intros [Hc Hs]%andb_true_iff. rewrite (Hpq _ Hc), (IH Hs). reflexivity.
Qed.

Lemma is_digit_cases c :
  is_digit c = true ->
  c ∈ ["0"; "1"; "2"; "3"; "4"; "5"; "6"; "7"; "8"; "9"]%char.
Proof.
  destruct c as [[] [] [] [] [] [] [] []]; vm_compute; intros H;
    try discriminate H; set_solver.
Qed.

Lemma digit_char_is_digit d : 0 <= d < 10 -> is_digit (Js.digit_char d) = true.
Proof.
  intros Hd.
  assert (d = 0 \/ d = 1 \/ d = 2 \/ d = 3 \/ d = 4 \/ d = 5 \/ d = 6 \/ d = 7
          \/ d = 8 \/ d = 9) as Hcases by lia.
  repeat destruct Hcases as [-> | Hcases]; try subst d; reflexivity.
Qed.

Lemma digit_value_digit_char d :
  0 <= d < 10 -> Js.digit_value 10 (Js.digit_char d) = Some d.
Proof.
  intros Hd.
  assert (d = 0 \/ d = 1 \/ d = 2 \/ d = 3 \/ d = 4 \/ d = 5 \/ d = 6 \/ d = 7
          \/ d = 8 \/ d = 9) as Hcases by lia.
  repeat destruct Hcases as [-> | Hcases]; try subst d; reflexivity.
Qed.

(** [digits_of] puts digits in front of [acc]. *)
Lemma digits_of_app fuel n acc :
  0 <= n ->
  exists c ds, string_forall is_digit (String c ds) = true /\
               Js.digits_of fuel n acc = String c ds +:+ acc.
Proof.
  revert n acc. induction fuel as [|fuel IH]; intros n acc Hn.
  - exists (Js.digit_char (n mod 10)), EmptyString. split; [|reflexivity].
    simpl. rewrite digit_char_is_digit; [reflexivity | apply Z.mod_pos_bound; lia].
  - simpl. destruct (n / 10 =? 0).
    + exists (Js.digit_char (n mod 10)), EmptyString. split; [|reflexivity].
      simpl. rewrite digit_char_is_digit; [reflexivity | apply Z.mod_pos_bound; lia].
    + destruct (IH (n / 10) (String (Js.digit_char (n mod 10)) acc)) as (c & ds & Hds & ->).
      { apply Z.div_pos; lia. }
      exists c, (ds +:+ String (Js.digit_char (n mod 10)) EmptyString). split.
      * simpl in *. apply andb_true_iff in Hds as [-> Hds]. simpl.
        rewrite string_forall_app, Hds. simpl.
        rewrite digit_char_is_digit; [reflexivity | apply Z.mod_pos_bound; lia].
      * symmetry.
        apply (string_app_assoc (String c ds) (String (Js.digit_char (n mod 10)) EmptyString) acc).
Qed.

(** Reading back what [digits_of] printed. *)
Lemma parse_digits_of fuel n acc :
  0 <= n < 10 ^ Z.of_nat (S fuel) ->
  Js.parse_digits 10 (Js.digits_of fuel n acc) None = Js.parse_digits 10 acc (Some n).
Proof.
  revert n acc. induction fuel as [|fuel IH]; intros n acc Hn.
  - change (10 ^ Z.of_nat 1) with 10 in Hn.
    simpl. rewrite Z.mod_small by lia. rewrite digit_value_digit_char by lia. reflexivity.
  - cbn [Js.digits_of]. destruct (n / 10 =? 0) eqn:Hq.
    + apply Z.eqb_eq in Hq.
      assert (n < 10) by (apply Z.div_small_iff in Hq; lia).
      simpl. rewrite Z.mod_small by lia. rewrite digit_value_digit_char by lia. reflexivity.
    + rewrite IH.
      * simpl. rewrite digit_value_digit_char by (apply Z.mod_pos_bound; lia).
        f_equal. f_equal. pose proof (Z.div_mod n 10). lia.
      * split; [apply Z.div_pos; lia|].
        apply Z.div_lt_upper_bound; [lia|].
        replace (Z.of_nat (S (S fuel))) with (Z.succ (Z.of_nat (S fuel))) in Hn by lia.
        rewrite Z.pow_succ_r in Hn by lia. lia.
Qed.

Lemma log2_fuel n : 0 <= n -> n < 10 ^ Z.of_nat (S (Z.to_nat (Z.log2 n))).
Proof.
  intros Hn. destruct (Z.eq_dec n 0) as [-> | Hne]; [reflexivity|].
  pose proof (Z.log2_nonneg n) as Hlog.
  replace (Z.of_nat (S (Z.to_nat (Z.log2 n)))) with (Z.succ (Z.log2 n)) by lia.
  destruct (Z.log2_spec n) as [_ Hlt]; [lia|].
  eapply Z.lt_le_trans; [exact Hlt|].
  apply Z.pow_le_mono_l. lia.
Qed.

(** [parseInt] of a string of decimal digits reads all of them. *)
Lemma parseInt_digits c ds :
  string_forall is_digit (String c ds) = true ->
  Js.parseInt (String c ds) = Js.parse_digits 10 (String c ds) None.
Proof.
  simpl. intros [Hc Hds]%andb_true_iff.
  assert (forall v : option Z, Z.mul 1 <$> v = v) as Hone.
  { intros [v|]; simpl; [f_equal; lia | reflexivity]. }
  destruct ds as [|x ds].
  - apply is_digit_cases in Hc.
    repeat (apply elem_of_cons in Hc as [-> | Hc]); try (by apply elem_of_nil in Hc);
      (etransitivity; [|apply Hone]); reflexivity.
  - simpl in Hds. apply andb_true_iff in Hds as [Hx _].
    apply is_digit_cases in Hc. apply is_digit_cases in Hx.
    repeat (apply elem_of_cons in Hc as [-> | Hc]); try (by apply elem_of_nil in Hc);
      repeat (apply elem_of_cons in Hx as [-> | Hx]); try (by apply elem_of_nil in Hx);
      (etransitivity; [|apply Hone]); reflexivity.
Qed.

(** [parseInt(String(n)) = n] for a non-negative integer. *)
Lemma parseInt_String_of n : 0 <= n -> Js.parseInt (Js.String_of n) = Some n.
Proof.
  intros Hn. unfold Js.String_of.
  destruct (n <? 0) eqn:Hneg; [apply Z.ltb_lt in Hneg; lia|].
  destruct (digits_of_app (Z.to_nat (Z.log2 n)) n EmptyString Hn) as (c & ds & Hds & Heq).
  rewrite string_app_nil_r in Heq. rewrite Heq, (parseInt_digits _ _ Hds), <- Heq.
  rewrite parse_digits_of; [reflexivity|].
  split; [exact Hn | apply log2_fuel, Hn].
Qed.

Lemma String_of_digits n : 0 <= n -> string_forall is_digit (Js.String_of n) = true.
Proof.
  intros Hn. unfold Js.String_of.
  destruct (n <? 0) eqn:Hneg; [apply Z.ltb_lt in Hneg; lia|].
  destruct (digits_of_app (Z.to_nat (Z.log2 n)) n EmptyString Hn) as (c & ds & Hds & ->).
  rewrite string_app_nil_r. exact Hds.
Qed.

Lemma padStart_digits s n :
  string_forall is_digit s = true -> string_forall is_digit (Js.padStart s n "0") = true.
Proof.
  intros Hs. unfold Js.padStart. rewrite string_forall_app, Hs, andb_true_r.
  induction (n - String.length s)%nat as [|k IH]; [reflexivity | exact IH].
Qed.

Lemma digit_is_not x :
  is_digit x = false -> forall s, string_forall is_digit s = true ->
  string_forall (char_is_not x) s = true.
Proof.
  intros Hx s. apply string_forall_impl. intros c Hc. unfold char_is_not.
  destruct (Ascii.eqb_spec c x) as [-> | _]; [congruence | reflexivity].
Qed.

(** ** File names *)

Lemma String_prefix_app p t : String.prefix p (p +:+ t) = true.
Proof.
  induction p as [|c p IH].
  - destruct t; reflexivity.
  - change (String c p +:+ t) with (String c (p +:+ t)). cbn [String.prefix].
    destruct (ascii_dec c c) as [_ | Hne]; [exact IH | contradiction].
Qed.

(** [replace] removes the first occurrence of [.png]: the one after a text
    without a dot. *)
Lemma replace_png s t :
  string_forall (char_is_not ".") s = true ->
  Js.replace (s +:+ (".png" +:+ t)) ".png" "" = s +:+ t.
Proof.
  induction s as [|c s IH]; intros Hs.
  { change (EmptyString +:+ (".png" +:+ t))
      with (String "." (String "p" (String "n" (String "g" t)))).
    cbn [Js.replace].
    replace (String.prefix ".png" (String "." (String "p" (String "n" (String "g" t)))))
      with true by (symmetry; apply (String_prefix_app ".png" t)).
    reflexivity. }
  simpl in Hs. apply andb_true_iff in Hs as [Hc Hs].
  change (String c s +:+ (".png" +:+ t)) with (String c (s +:+ (".png" +:+ t))).
  cbn [Js.replace]. unfold char_is_not in Hc.
  destruct (Ascii.eqb_spec c ".") as [-> | Hne]; [discriminate Hc|].
  replace (String.prefix ".png" (String c (s +:+ (".png" +:+ t)))) with false.
  - rewrite (IH Hs). reflexivity.
  - cbn [String.prefix]. destruct (ascii_dec "." c) as [<- | _]; [contradiction | reflexivity].
Qed.

Lemma split_no_separator sep s :
  string_forall (char_is_not sep) s = true -> Js.split s sep = [s].
Proof.
  induction s as [|c s IH]; intros Hs; [reflexivity|].
  simpl in Hs. apply andb_true_iff in Hs as [Hc Hs].
  cbn [Js.split]. unfold char_is_not in Hc.
  destruct (Ascii.eqb c sep); [discriminate Hc|].
  rewrite (IH Hs). reflexivity.
Qed.

(** The last part of a split is the text after the last separator. *)
Lemma split_last sep a d :
  string_forall (char_is_not sep) d = true ->
  List.last (Js.split (a +:+ String sep d) sep) EmptyString = d.
Proof.
  intros Hd.
  assert (exists p ps, Js.split (a +:+ String sep d) sep = (p :: ps) ++ [d]) as (p & ps & ->).
  { induction a as [|c a (p & ps & IH)].
    - exists EmptyString, []. change (EmptyString +:+ String sep d) with (String sep d).
      cbn [Js.split]. rewrite Ascii.eqb_refl, (split_no_separator _ _ Hd). reflexivity.
    - change (String c a +:+ String sep d) with (String c (a +:+ String sep d)).
      cbn [Js.split]. rewrite IH. destruct (Ascii.eqb c sep).
      + exists EmptyString, (p :: ps). reflexivity.
      + exists (String c p), ps. reflexivity. }
  apply List.last_last.
Qed.

(** The timestamp the comparator reads from the name of a frame written by a
    capture is the capture's clock reading. *)
Lemma getTimestamp_imageName count timestamp :
  0 <= timestamp -> getTimestamp (imageName count timestamp) = Some timestamp.
Proof.
  intros Ht. unfold getTimestamp, imageName.
  set (P := Js.padStart (Js.String_of (Z.of_nat count)) 5 "0").
  set (D := Js.String_of timestamp).
  assert (string_forall is_digit P = true) as HP
    by (apply padStart_digits, String_of_digits; lia).
  assert (string_forall is_digit D = true) as HD by (apply String_of_digits, Ht).
  replace ("image_" +:+ P +:+ "_" +:+ D +:+ ".png")
    with (("image_" +:+ P +:+ "_" +:+ D) +:+ (".png" +:+ EmptyString)).
  2:{ rewrite !string_app_assoc. reflexivity. }
  rewrite replace_png.
  - rewrite string_app_nil_r.
    replace ("image_" +:+ P +:+ "_" +:+ D) with (("image_" +:+ P) +:+ String "_" D).
    2:{ rewrite !string_app_assoc. reflexivity. }
    rewrite split_last by (apply digit_is_not; [reflexivity | exact HD]).
    apply parseInt_String_of, Ht.
  - rewrite !string_forall_app.
    rewrite (digit_is_not "." eq_refl _ HP), (digit_is_not "." eq_refl _ HD).
    reflexivity.
Qed.

Lemma endsWith_app a suffix : Js.endsWith (a +:+ suffix) suffix = true.
Proof.
  induction a as [|c a IH].
  - change (EmptyString +:+ suffix) with suffix.
    destruct suffix; simpl; rewrite ?String.eqb_refl, ?Ascii.eqb_refl; reflexivity.
  - change (String c a +:+ suffix) with (String c (a +:+ suffix)).
    cbn [Js.endsWith]. rewrite IH. apply orb_true_r.
Qed.

(** A frame written by a capture is recognized when the directory is
    scanned. *)
Lemma isFrameFile_imageName count timestamp :
  isFrameFile (imageName count timestamp) = true.
Proof.
  unfold isFrameFile, imageName. apply andb_true_iff. split.
  - apply String_prefix_app.
  - rewrite <- !string_app_assoc. apply endsWith_app.
Qed.

Lemma imageName_first count timestamp :
  exists rest, imageName count timestamp = String "i" rest.
Proof. unfold imageName. eexists. reflexivity. Qed.

Lemma imageName_not_gif count timestamp : imageName count timestamp ≠ "timelapse.gif".
Proof. destruct (imageName_first count timestamp) as [rest ->]. discriminate. Qed.

Lemma imageName_not_metadata count timestamp : imageName count timestamp ≠ "metadata.json".
Proof. destruct (imageName_first count timestamp) as [rest ->]. discriminate. Qed.

(** ** The file system *)

Lemma fs_file_writeFile fs dir name data fs' dir' name' :
  fs_writeFile fs dir name data = Ok fs' ->
  fs_file fs' dir' name' =
    if bool_decide (dir' = dir /\ name' = name) then Some data else fs_file fs dir' name'.
Proof.
  unfold fs_writeFile, fs_file. destruct (fs !! dir) as [d|] eqn:Hd; [|discriminate].
  intros [= <-]. destruct (decide (dir' = dir)) as [-> | Hdir].
  - rewrite lookup_insert_eq, Hd. simpl.
    destruct (decide (name' = name)) as [-> | Hname].
    + rewrite lookup_insert_eq, bool_decide_eq_true_2; done.
    + rewrite lookup_insert_ne by done. rewrite bool_decide_eq_false_2; [done | tauto].
  - rewrite lookup_insert_ne by done. rewrite bool_decide_eq_false_2; [done | tauto].
Qed.

Lemma fs_writeFile_dirs fs dir name data fs' dir' :
  fs_writeFile fs dir name data = Ok fs' -> is_Some (fs' !! dir') <-> is_Some (fs !! dir').
Proof.
  unfold fs_writeFile. destruct (fs !! dir) as [d|] eqn:Hd; [|discriminate].
  intros [= <-]. destruct (decide (dir' = dir)) as [-> | Hdir].
  - rewrite lookup_insert_eq, Hd. split; eauto.
  - rewrite lookup_insert_ne by done. reflexivity.
Qed.

Lemma fs_writeFile_is_ok fs dir name data :
  is_Some (fs !! dir) -> exists fs', fs_writeFile fs dir name data = Ok fs'.
Proof. intros [d Hd]. unfold fs_writeFile. rewrite Hd. eauto. Qed.

Lemma fs_readFile_file fs dir name data :
  fs_readFile fs dir name = Ok data <-> fs_file fs dir name = Some data.
Proof.
  unfold fs_readFile. destruct (fs_file fs dir name); split; intros H; congruence.
Qed.

Lemma sharp_input_file fs dir name data :
  sharp_input fs dir name = Ok data <-> fs_file fs dir name = Some data.
Proof.
  unfold sharp_input. destruct (fs_file fs dir name); split; intros H; congruence.
Qed.

Lemma fs_file_dir fs dir name data : fs_file fs dir name = Some data -> is_Some (fs !! dir).
Proof. unfold fs_file. destruct (fs !! dir); [eauto | discriminate]. Qed.

(** ** [generateGif] only ever writes the artifact *)

Section Assembly.
Context `{Runtime}.

Lemma generateGif_file fs sessionDir images delay dir name :
  name ≠ "timelapse.gif"%string ->
  fs_file (generateGif fs sessionDir images delay).1 dir name = fs_file fs dir name.
Proof.
  intros Hname. unfold generateGif.
  destruct images as [|firstImage rest]; [reflexivity|].
  destruct (sharp_input fs sessionDir firstImage); [|reflexivity].
  destruct (sharp_metadata a) as [[width height]|]; [|reflexivity].
  set (loop := addFrames _ _ _ _ _ _ _).
  destruct (fs_writeFile fs sessionDir "timelapse.gif" _) as [fs'|] eqn:Hw.
  - destruct (loop.2); simpl; rewrite (fs_file_writeFile _ _ _ _ _ _ _ Hw);
      rewrite bool_decide_eq_false_2; tauto.
  - destruct (loop.2); reflexivity.
Qed.

Lemma generateGif_dirs fs sessionDir images delay dir :
  is_Some ((generateGif fs sessionDir images delay).1 !! dir) <-> is_Some (fs !! dir).
Proof.
  unfold generateGif.
  destruct images as [|firstImage rest]; [reflexivity|].
  destruct (sharp_input fs sessionDir firstImage); [|reflexivity].
  destruct (sharp_metadata a) as [[width height]|]; [|reflexivity].
  set (loop := addFrames _ _ _ _ _ _ _).
  destruct (fs_writeFile fs sessionDir "timelapse.gif" _) as [fs'|] eqn:Hw.
  - destruct (loop.2); simpl; apply (fs_writeFile_dirs _ _ _ _ _ _ Hw).
  - destruct (loop.2); reflexivity.
Qed.

End Assembly.

(** ** The paths through a capture *)

Section Capture.
Context `{Runtime}.

(** A capture of an unknown session. *)
Lemma capture_unknown sessionId net now w :
  sessions w !! sessionId = None ->
  capture sessionId net now w = (w, ErrorResponse 404 "Session not found").
Proof. intros Hs. unfold capture. rewrite Hs. reflexivity. Qed.

(** A capture whose fetch fails. *)
Lemma capture_fetch_failed sessionId net now w s message :
  sessions w !! sessionId = Some s ->
  fetchImage net (url s) = Err message ->
  capture sessionId net now w = (w, captureFailed message).
Proof. intros Hs Hf. unfold capture. rewrite Hs, Hf. reflexivity. Qed.

(** A capture that fetches the bytes of the last stored frame. *)
Lemma capture_duplicate sessionId net now w s data :
  sessions w !! sessionId = Some s ->
  fetchImage net (url s) = Ok data ->
  lastFrameIs w s data ->
  capture sessionId net now w =
    (w, CaptureResponse true (length (images s)) (last (images s)) true).
Proof.
  intros Hs Hf (lastImage & Hlast & Hfile). unfold capture.
  rewrite Hs, Hf, Hlast. apply fs_readFile_file in Hfile. rewrite Hfile.
  unfold Buffer_equals. rewrite bool_decide_eq_true_2; reflexivity.
Qed.

(** A capture that fetches new bytes into an existing directory. *)
Lemma capture_stored sessionId net now w s data :
  sessions w !! sessionId = Some s ->
  fetchImage net (url s) = Ok data ->
  lastFrameDiffers w s data ->
  is_Some (disk w !! sessionDir s) ->
  let name := imageName (captureCount s) now in
  let s' := recordCapture s name in
  exists fs1,
    fs_writeFile (disk w) (sessionDir s) name data = Ok fs1 /\
    (capture sessionId net now w).1 =
      {| disk := (generateGif fs1 (sessionDir s) (images s') 500).1;
         sessions := <[sessionId := s']> (sessions w) |} /\
    ((capture sessionId net now w).2 =
       CaptureResponse true (length (images s')) (Some name) false \/
     exists message, (capture sessionId net now w).2 = captureFailed message).
Proof.
  intros Hs Hf Hlast Hdir name s'.
  destruct (fs_writeFile_is_ok (disk w) (sessionDir s) name data Hdir) as [fs1 Hw].
  exists fs1. split; [exact Hw|].
  unfold capture. rewrite Hs, Hf.
  assert (match last (images s) with
          | Some lastImage =>
              match fs_readFile (disk w) (sessionDir s) lastImage with
              | Ok lastImageBuffer => Ok (Buffer_equals data lastImageBuffer)
              | Err message => Err message
              end
          | None => Ok false
          end = Ok false) as ->.
  { unfold lastFrameDiffers in Hlast. destruct (last (images s)) as [l|]; [|reflexivity].
    destruct Hlast as (other & Hfile & Hne). apply fs_readFile_file in Hfile.
    rewrite Hfile. unfold Buffer_equals. rewrite bool_decide_eq_false_2; congruence. }
  fold name. rewrite Hw. cbn [sessionDir images].
  change (images s ++ [name]) with (images s').
  destruct (generateGif fs1 (sessionDir s) (images s') 500) as [fs2 [g|message]]; simpl.
  - split; [reflexivity|]. left. unfold s', recordCapture; simpl.
    rewrite last_snoc. reflexivity.
  - split; [reflexivity|]. right. eauto.
Qed.

Lemma capture_path sessionId net now w :
  CapturePath sessionId net now w (capture sessionId net now w).1
    (capture sessionId net now w).2.
Proof.
  unfold capture.
  destruct (sessions w !! sessionId) as [s|] eqn:Hs; [|by apply path_unknown].
  destruct (fetchImage net (url s)) as [data|message] eqn:Hf;
    [|by eapply path_failed].
  destruct (last (images s)) as [lastImage|] eqn:Hlast.
  - destruct (fs_readFile (disk w) (sessionDir s) lastImage) as [lastData|message] eqn:Hr;
      [|by eapply path_failed].
    unfold Buffer_equals. case_bool_decide as Heq.
    + subst lastData. simpl. rewrite <- Hlast. eapply path_duplicate; eauto.
      exists lastImage. split; [exact Hlast | by apply fs_readFile_file].
    + destruct (fs_writeFile _ _ _ data) as [fs1|message] eqn:Hw;
        [|by eapply path_failed].
      cbn [sessionDir images].
      pose proof (path_stored sessionId net now w s data fs1) as Hp.
      destruct (generateGif fs1 (sessionDir s) _ 500) as [fs2 [g|message]] eqn:Hg;
        simpl; unfold recordCapture in Hp; simpl in Hp; rewrite Hg in Hp; simpl in Hp.
      * apply Hp; auto. left. rewrite last_snoc. reflexivity.
      * apply Hp; eauto.
  - destruct (fs_writeFile _ _ _ data) as [fs1|message] eqn:Hw;
      [|by eapply path_failed].
    cbn [sessionDir images].
    pose proof (path_stored sessionId net now w s data fs1) as Hp.
    destruct (generateGif fs1 (sessionDir s) _ 500) as [fs2 [g|message]] eqn:Hg;
      simpl; unfold recordCapture in Hp; simpl in Hp; rewrite Hg in Hp; simpl in Hp.
    + apply Hp; auto. left. rewrite last_snoc. reflexivity.
    + apply Hp; eauto.
Qed.

End Capture.

(** ** Evaluating the handlers *)

Example started_world_session :
  sessions started_world !! "s1"%string =
    Some {| url := camera_url; dirName := "example_com_cam_png_9e107d9d";
            sessionDir := "captures/example_com_cam_png_9e107d9d";
            images := []; captureCount := 0 |}.
Proof. vm_compute. reflexivity. Qed.

Example captured_world_session :
  sessions captured_world !! "s1"%string =
    Some {| url := camera_url; dirName := "example_com_cam_png_9e107d9d";
            sessionDir := "captures/example_com_cam_png_9e107d9d";
            images := ["image_00000_1700000030000.png"%string]; captureCount := 1 |}.
Proof. vm_compute. reflexivity. Qed.

Example captured_world_frame :
  fs_file (disk captured_world) "captures/example_com_cam_png_9e107d9d"
    "image_00000_1700000030000.png" = Some frame_A.
Proof. vm_compute. reflexivity. Qed.

(** ** Fetching *)

(** C1, counterexample.  The origin answers 404 with a placeholder image:
    [fetchImage] does not fail, it resolves with the bytes of the body, and
    the capture stores them as the first frame of the session. *)
Lemma fetch_non_2xx_is_stored :
  origin_not_found (protocolOf camera_url) camera_url = HttpResponse 404 [placeholder] None /\
  fetchImage origin_not_found camera_url = Ok placeholder /\
  ~ (exists message, fetchImage origin_not_found camera_url = Err message) /\
  (@capture test_runtime "s1" origin_not_found 1700000030000 started_world).2
    = CaptureResponse true 1 (Some "image_00000_1700000030000.png"%string) false /\
  fs_file (@capture test_runtime "s1" origin_not_found 1700000030000 started_world).1.(disk)
    "captures/example_com_cam_png_9e107d9d" "image_00000_1700000030000.png"
    = Some placeholder.
Proof.
  split; [reflexivity|]. split; [reflexivity|]. split.
  - intros [message Hm]. vm_compute in Hm. discriminate Hm.
  - split; vm_compute; reflexivity.
Qed.

(** C1, as the code has it.  [fetchImage] fails exactly on a network-level
    failure: when the request emits an error, or the response stream does
    after the response arrived, the fetch rejects with that error and a
    capture of a session for that URL answers with the failure and changes
    nothing.  A response whose stream ends resolves with the concatenated
    body whatever its status code is. *)
Theorem fetch_fails_on_network_errors `{Runtime} (net : Network) (target : string) :
  (forall message,
     (net (protocolOf target) target = RequestError message \/
      exists status chunks,
        net (protocolOf target) target = HttpResponse status chunks (Some message)) ->
     fetchImage net target = Err message /\
     forall sessionId now w s,
       sessions w !! sessionId = Some s -> url s = target ->
       capture sessionId net now w = (w, captureFailed message)) /\
  (forall status chunks,
     net (protocolOf target) target = HttpResponse status chunks None ->
     fetchImage net target = Ok (Buffer_concat chunks)).
Proof.
  split.
  - intros message Hnet.
    assert (fetchImage net target = Err message) as Hf.
    { unfold fetchImage. destruct Hnet as [-> | (status & chunks & ->)]; reflexivity. }
    split; [exact Hf|].
    intros sessionId now w s Hs <-. exact (capture_fetch_failed _ _ _ _ s _ Hs Hf).
  - intros status chunks Hnet. unfold fetchImage. rewrite Hnet. reflexivity.
Qed.

Lemma fetch_fails_on_network_errors_witness :
  fetchImage origin_down camera_url = Err "connect ECONNREFUSED" /\
  fetchImage (origin_serves frame_A) camera_url = Ok frame_A.
Proof.
  destruct (@fetch_fails_on_network_errors test_runtime origin_down camera_url) as [Hfail _].
  destruct (@fetch_fails_on_network_errors test_runtime (origin_serves frame_A) camera_url)
    as [_ Hok].
  split.
  - apply (Hfail "connect ECONNREFUSED"%string). left. reflexivity.
  - apply (Hok 200 [frame_A]). reflexivity.
Defined.

(** ** Assembly of no frames *)

(** C5.  Assembling an empty frame list returns [null] without an error and
    leaves the disk as it is: no artifact is written.  The empty list is the
    only one with that result.  A regeneration request for a session without
    frames therefore answers with success and changes nothing. *)
Theorem generateGif_no_frames `{Runtime} (fs : FS) (dir : string) (delay : Z) :
  generateGif fs dir [] delay = (fs, Ok None) /\
  (forall names, (generateGif fs dir names delay).2 = Ok None -> names = []) /\
  (forall sessionId speed w s,
     sessions w !! sessionId = Some s -> images s = [] ->
     generate_gif sessionId speed w = (w, GenerateResponse true)).
Proof.
  split; [reflexivity|]. split.
  - intros names. unfold generateGif. destruct names as [|firstImage rest]; [reflexivity|].
    destruct (sharp_input fs dir firstImage) as [firstData|]; [|discriminate].
    destruct (sharp_metadata firstData) as [[width height]|]; [|discriminate].
    destruct (addFrames fs dir width height (firstImage :: rest) None []).2; discriminate.
  - intros sessionId speed w s Hs Himages. unfold generate_gif. rewrite Hs, Himages.
    cbn [generateGif]. destruct w. reflexivity.
Qed.

Lemma generateGif_no_frames_witness :
  @generate_gif test_runtime "s1" (Some 2%Q) started_world
    = (started_world, GenerateResponse true).
Proof.
  destruct (@generateGif_no_frames test_runtime (disk started_world) "captures" 500)
    as (_ & _ & Hregenerate).
  apply (Hregenerate "s1"%string (Some 2%Q) started_world _ started_world_session).
  reflexivity.
Defined.

(** ** Duplicate captures *)

Section Duplicates.
Context `{Runtime}.

Lemma serve_duplicates sessionId (net : Network) clock w s data :
  sessions w !! sessionId = Some s ->
  fetchImage net (url s) = Ok data ->
  lastFrameIs w s data ->
  serve w (captures sessionId net clock) = w.
Proof.
  intros Hs Hf Hl. induction clock as [|now clock IH]; [reflexivity|].
  cbn [captures map serve handle].
  rewrite (capture_duplicate _ _ _ _ _ _ Hs Hf Hl). exact IH.
Qed.

(** After a capture has stored the fetched bytes, they are the last frame
    of the session. *)
Lemma stored_is_last sessionId (now : Z) w s data fs1 :
  sessions w !! sessionId = Some s ->
  fs_writeFile (disk w) (sessionDir s) (imageName (captureCount s) now) data = Ok fs1 ->
  let s' := recordCapture s (imageName (captureCount s) now) in
  lastFrameIs
    {| disk := (generateGif fs1 (sessionDir s) (images s') 500).1;
       sessions := <[sessionId := s']> (sessions w) |} s' data.
Proof.
  intros Hs Hw s'. exists (imageName (captureCount s) now). split.
  - unfold s', recordCapture. cbn [images]. apply last_snoc.
  - cbn [disk]. unfold s', recordCapture at 1. cbn [sessionDir].
    rewrite generateGif_file by apply imageName_not_gif.
    rewrite (fs_file_writeFile _ _ _ _ _ _ _ Hw).
    rewrite bool_decide_eq_true_2; done.
Qed.

End Duplicates.

(** C2, counterexample.  A session resumes a directory whose last frame
    holds the bytes [frame_B]; a run of three captures that all fetch
    [frame_B] follows.  No frame is stored: the counter is 3 before and after
    the run, not one higher, and the disk is unchanged. *)
Lemma run_of_duplicates_stores_nothing :
  let run := captures "s1" (origin_serves frame_B)
               [1700000030000; 1700000060000; 1700000090000] in
  let w' := @serve test_runtime resumed_world run in
  captureCount <$> sessions resumed_world !! "s1"%string = Some 3%nat /\
  captureCount <$> sessions w' !! "s1"%string = Some 3%nat /\
  ~ (captureCount <$> sessions w' !! "s1"%string = Some 4%nat) /\
  images <$> sessions w' !! "s1"%string = images <$> sessions resumed_world !! "s1"%string /\
  disk w' = disk resumed_world.
Proof.
  cbv zeta. split; [vm_compute; reflexivity|]. split; [vm_compute; reflexivity|].
  split; [vm_compute; discriminate|]. split; [vm_compute; reflexivity|].
  apply (bool_decide_eq_true_1 _). vm_compute. reflexivity.
Qed.

(** C2, as the code has it.  Take a session and a network that serves the
    bytes [data].  If [data] are the bytes of the last stored frame, a
    capture writes no file, leaves the counter and the frame sequence as
    they are and reports a duplicate, and so does every run of such
    captures.  If the session directory exists and the last stored frame, if
    there is one, holds other bytes, a run of one or more captures that all
    fetch [data] stores exactly one frame, at the first capture: the frame
    sequence gains that one name, the counter increases by one, the file
    holds [data], and no other file but the animation changes. *)
Theorem duplicate_captures_store_once `{Runtime} sessionId (net : Network) w s data :
  sessions w !! sessionId = Some s ->
  fetchImage net (url s) = Ok data ->
  (lastFrameIs w s data ->
     (forall now,
        capture sessionId net now w =
          (w, CaptureResponse true (length (images s)) (last (images s)) true)) /\
     (forall clock, serve w (captures sessionId net clock) = w)) /\
  (lastFrameDiffers w s data ->
   is_Some (disk w !! sessionDir s) ->
   forall now clock,
     let name := imageName (captureCount s) now in
     let w' := serve w (captures sessionId net (now :: clock)) in
     sessions w' = <[sessionId := recordCapture s name]> (sessions w) /\
     images (recordCapture s name) = images s ++ [name] /\
     captureCount (recordCapture s name) = S (captureCount s) /\
     fs_file (disk w') (sessionDir s) name = Some data /\
     forall dir file,
       file ≠ "timelapse.gif"%string -> (dir, file) ≠ (sessionDir s, name) ->
       fs_file (disk w') dir file = fs_file (disk w) dir file).
Proof.
  intros Hs Hf. split.
  - intros Hl. split.
    + intros now. by apply (capture_duplicate _ _ _ _ _ data).
    + intros clock. by apply (serve_duplicates _ _ _ _ s data).
  - intros Hd Hdir now clock name w'.
    destruct (capture_stored sessionId net now w s data Hs Hf Hd Hdir)
      as (fs1 & Hw & Hw1 & _).
    assert (w' = (capture sessionId net now w).1) as Hw'.
    { subst w'. cbn [captures map serve handle].
      destruct (capture sessionId net now w) as [w1 r] eqn:Hc. cbn [fst] in *.
      rewrite Hw1.
      apply (serve_duplicates _ _ _ _ (recordCapture s (imageName (captureCount s) now)) data).
      - cbn [sessions]. apply lookup_insert_eq.
      - exact Hf.
      - by apply stored_is_last. }
    rewrite Hw', Hw1. cbn [disk sessions]. fold name.
    split; [reflexivity|]. split; [reflexivity|]. split; [reflexivity|]. split.
    + rewrite generateGif_file by apply imageName_not_gif.
      rewrite (fs_file_writeFile _ _ _ _ _ _ _ Hw).
      rewrite bool_decide_eq_true_2; done.
    + intros dir file Hgif Hother.
      rewrite generateGif_file by exact Hgif.
      rewrite (fs_file_writeFile _ _ _ _ _ _ _ Hw).
      rewrite bool_decide_eq_false_2; [done|]. intros [-> ->]. by apply Hother.
Qed.

Lemma duplicate_captures_store_once_witness :
  let run := captures "s1" (origin_serves frame_A)
               [1700000030000; 1700000060000; 1700000090000] in
  images <$> sessions (@serve test_runtime started_world run) !! "s1"%string
    = Some ["image_00000_1700000030000.png"%string] /\
  @serve test_runtime captured_world
    (captures "s1" (origin_serves frame_A) [1700000060000; 1700000090000]) = captured_world.
Proof.
  split.
  - destruct (@duplicate_captures_store_once test_runtime "s1" (origin_serves frame_A)
                started_world _ frame_A started_world_session eq_refl) as [_ Hrun].
    assert (is_Some (disk started_world !! "captures/example_com_cam_png_9e107d9d"%string))
      as Hdir by (apply (bool_decide_eq_true_1 _); vm_compute; reflexivity).
    destruct (Hrun I Hdir 1700000030000 [1700000060000; 1700000090000]) as [Hsessions _].
    cbv zeta. rewrite Hsessions. rewrite lookup_insert_eq. reflexivity.
  - destruct (@duplicate_captures_store_once test_runtime "s1" (origin_serves frame_A)
                captured_world _ frame_A captured_world_session eq_refl) as [Hdup _].
    apply Hdup.
    exists "image_00000_1700000030000.png"%string. split; vm_compute; reflexivity.
Defined.

(** C10.  A capture that fetches the bytes of the last stored frame leaves
    the whole world as it is, the animation artifact on disk included, and
    answers with the existing frame count, the name of the latest frame and
    the duplicate flag.  Conversely a capture that reports a duplicate has
    changed nothing: the animation is only assembled on the path that
    stores a frame. *)
Theorem duplicate_capture_keeps_artifact `{Runtime} sessionId net now w s :
  sessions w !! sessionId = Some s ->
  let w' := (capture sessionId net now w).1 in
  let response := (capture sessionId net now w).2 in
  (forall data,
     fetchImage net (url s) = Ok data ->
     lastFrameIs w s data ->
     w' = w /\
     fs_file (disk w') (sessionDir s) "timelapse.gif"
       = fs_file (disk w) (sessionDir s) "timelapse.gif" /\
     is_Some (last (images s)) /\
     response = CaptureResponse true (length (images s)) (last (images s)) true) /\
  (forall success imageCount latestImage,
     response = CaptureResponse success imageCount latestImage true ->
     w' = w /\ success = true /\ imageCount = length (images s) /\
     latestImage = last (images s)).
Proof.
  intros Hs w' response. split.
  - intros data Hf Hl. subst w' response.
    rewrite (capture_duplicate _ _ _ _ _ _ Hs Hf Hl). cbn [fst snd].
    destruct Hl as (lastImage & -> & _). eauto.
  - intros success imageCount latestImage. subst w' response.
    generalize (capture_path sessionId net now w).
    generalize (capture sessionId net now w).1 (capture sessionId net now w).2.
    intros w' response Hp Hresp.
    destruct Hp as [Hnone|s0 m Hs0|s0 data Hs0 Hf Hl|s0 data fs1 r Hs0 Hf Hw s' Hr].
    + discriminate Hresp.
    + discriminate Hresp.
    + assert (s0 = s) as -> by congruence. injection Hresp as <- <- <-. done.
    + destruct Hr as [-> | [m ->]]; discriminate Hresp.
Qed.

Lemma duplicate_capture_keeps_artifact_witness :
  (@capture test_runtime "s1" (origin_serves frame_A) 1700000060000 captured_world).1
    = captured_world /\
  (@capture test_runtime "s1" (origin_serves frame_A) 1700000060000 captured_world).2
    = CaptureResponse true 1 (Some "image_00000_1700000030000.png"%string) true.
Proof.
  destruct (@duplicate_capture_keeps_artifact test_runtime "s1" (origin_serves frame_A)
              1700000060000 captured_world _ captured_world_session) as [Hdup _].
  destruct (Hdup frame_A eq_refl) as (Hw & _ & _ & Hr).
  - exists "image_00000_1700000030000.png"%string. split; vm_compute; reflexivity.
  - split; [exact Hw | exact Hr].
Defined.

(** ** Assembly *)

Section AssemblyWalk.
Context `{Runtime}.

Lemma generateGif_artifact fs dir names delay fs' p :
  generateGif fs dir names delay = (fs', Ok (Some p)) ->
  exists width height,
    let loop := addFrames fs dir width height names None [] in
    loop.2 = Ok tt /\
    fs_file fs' dir "timelapse.gif" = Some (gif_stream (encoded width height delay loop)) /\
    p = path_join dir "timelapse.gif".
Proof.
  unfold generateGif. destruct names as [|firstImage rest]; [discriminate|].
  destruct (sharp_input fs dir firstImage) as [firstData|] eqn:Hr; [|discriminate].
  destruct (sharp_metadata firstData) as [[width height]|]; [|discriminate].
  set (loop := addFrames _ _ _ _ _ _ _).
  apply sharp_input_file, fs_file_dir in Hr.
  destruct (fs_writeFile_is_ok fs dir "timelapse.gif"
              (gif_stream (encoded width height delay loop)) Hr) as [fs1 Hw].
  rewrite Hw. destruct (loop.2) as [[]|] eqn:Hl; [|discriminate].
  intros [= <- <-]. exists width, height. fold loop. rewrite Hl.
  split; [reflexivity|]. split; [|reflexivity].
  rewrite (fs_file_writeFile _ _ _ _ _ _ _ Hw). rewrite bool_decide_eq_true_2; done.
Qed.

(** The loop of [generateGif] over readable, decodable files adds the
    frames that the walk of the specification accepts. *)
Lemma addFrames_collapse fs dir width height names contents previousName previous frames :
  stored_as fs dir names contents ->
  match previousName with
  | Some name => is_Some previous /\ fs_file fs dir name = previous
  | None => previous = None
  end ->
  (forall data, data ∈ contents -> is_ok (sharp_raw width height data) = true) ->
  exists added,
    normalized width height (collapse previous contents) added /\
    addFrames fs dir width height names previousName frames = (frames ++ added, Ok tt).
Proof.
  intros Hstored. revert previousName previous frames.
  induction Hstored as [|name data names contents Hfile Hstored IH];
    intros previousName previous frames Hprev Hdecode.
  - exists []. split; [constructor|]. simpl. by rewrite app_nil_r.
  - cbn [addFrames collapse].
    assert (match previousName with
            | Some previous0 => imagesAreIdentical fs dir name previous0
            | None => false
            end = bool_decide (previous = Some data)) as ->.
    { destruct previousName as [pn|].
      - destruct Hprev as [[pd ->] Hpn]. unfold imagesAreIdentical.
        apply fs_readFile_file in Hfile, Hpn. rewrite Hfile, Hpn. unfold Buffer_equals.
        apply bool_decide_ext. split; congruence.
      - subst previous. by rewrite bool_decide_eq_false_2. }
    case_bool_decide as Hsame.
    + apply IH; [exact Hprev|]. intros d Hd. apply Hdecode. by right.
    + pose proof Hfile as Hread. apply sharp_input_file in Hread. rewrite Hread.
      destruct (sharp_raw width height data) as [raw|message] eqn:Hraw.
      2:{ specialize (Hdecode data ltac:(left)). rewrite Hraw in Hdecode. discriminate. }
      destruct (IH (Some name) (Some data) (frames ++ [raw])) as (added & Hn & Heq).
      { split; [eauto | exact Hfile]. }
      { intros d Hd. apply Hdecode. by right. }
      exists (raw :: added). split; [by constructor|].
      rewrite Heq, <- app_assoc. reflexivity.
Qed.

End AssemblyWalk.

(** C4.  Let the image files named by a non-empty frame list all be readable
    and decodable.  Then the assembly succeeds and the animation it writes
    holds, in order, the normalized frames that the walk with a
    previous-accepted pointer keeps: a frame with the bytes of the previously
    accepted frame is skipped, any other frame is appended and becomes the
    previously accepted one.  For the contents [A; A; B; A] with [A] different
    from [B] the walk keeps [A; B; A]. *)
Theorem assembly_skips_immediate_repeats `{Runtime} fs dir delay names contents first
    width height :
  stored_as fs dir names contents ->
  head contents = Some first ->
  sharp_metadata first = Ok (width, height) ->
  (forall data, data ∈ contents -> is_ok (sharp_raw width height data) = true) ->
  (exists frames,
     normalized width height (collapse None contents) frames /\
     (generateGif fs dir names delay).2 = Ok (Some (path_join dir "timelapse.gif")) /\
     fs_file (generateGif fs dir names delay).1 dir "timelapse.gif" =
       Some (gif_stream {| gif_width := width; gif_height := height; gif_repeat := 0;
                           gif_delay := delay; gif_quality := 10;
                           gif_frames := frames; gif_finished := true |})) /\
  (forall A B : bytes, A ≠ B -> collapse None [A; A; B; A] = [A; B; A]).
Proof.
  intros Hstored Hfirst Hmeta Hdecode. split.
  - destruct (addFrames_collapse fs dir width height names contents None None []
                Hstored eq_refl Hdecode) as (frames & Hn & Hloop).
    exists frames. split; [exact Hn|].
    destruct Hstored as [|name data names contents Hfile Hstored]; [discriminate Hfirst|].
    injection Hfirst as ->.
    unfold generateGif. pose proof Hfile as Hread. apply sharp_input_file in Hread.
    rewrite Hread, Hmeta, Hloop. cbn [fst snd].
    destruct (fs_writeFile_is_ok fs dir "timelapse.gif"
                (gif_stream (encoded width height delay ([] ++ frames, Ok tt)))
                (fs_file_dir _ _ _ _ Hfile)) as [fs1 Hw].
    rewrite Hw. cbn [fst snd]. split; [reflexivity|].
    rewrite (fs_file_writeFile _ _ _ _ _ _ _ Hw). rewrite bool_decide_eq_true_2; done.
  - intros A B Hne. cbn [collapse].
    rewrite (bool_decide_eq_false_2 (None = Some A)) by discriminate.
    rewrite (bool_decide_eq_true_2 (Some A = Some A)) by reflexivity.
    rewrite (bool_decide_eq_false_2 (Some A = Some B)) by congruence.
    rewrite (bool_decide_eq_false_2 (Some B = Some A)) by congruence.
    reflexivity.
Qed.

Lemma assembly_skips_immediate_repeats_witness :
  fs_file (@generateGif test_runtime abba_disk "captures/abba" abba_names 500).1
    "captures/abba" "timelapse.gif"
  = Some (@gif_stream test_runtime
            {| gif_width := 4; gif_height := 3; gif_repeat := 0; gif_delay := 500;
               gif_quality := 10; gif_frames := [frame_A; frame_B; frame_A];
               gif_finished := true |}).
Proof.
  assert (stored_as abba_disk "captures/abba" abba_names [frame_A; frame_A; frame_B; frame_A])
    as Hstored by (repeat constructor; vm_compute; reflexivity).
  assert (forall data, data ∈ [frame_A; frame_A; frame_B; frame_A] ->
                       is_ok (@sharp_raw test_runtime 4 3 data) = true) as Hdecode.
  { intros data Hd.
    repeat (apply elem_of_cons in Hd as [-> | Hd]); try reflexivity.
    by apply elem_of_nil in Hd. }
  destruct (@assembly_skips_immediate_repeats test_runtime abba_disk "captures/abba" 500
              abba_names [frame_A; frame_A; frame_B; frame_A] frame_A 4 3
              Hstored eq_refl eq_refl Hdecode) as [(frames & Hn & _ & Hfile) Hwalk].
  rewrite (Hwalk frame_A frame_B) in Hn by (vm_compute; discriminate).
  unfold normalized in Hn.
  apply Forall2_cons_inv_l in Hn as (f1 & frames1 & [= <-] & Hn & ->).
  apply Forall2_cons_inv_l in Hn as (f2 & frames2 & [= <-] & Hn & ->).
  apply Forall2_cons_inv_l in Hn as (f3 & frames3 & [= <-] & Hn & ->).
  apply Forall2_nil_inv_l in Hn as ->.
  exact Hfile.
Defined.

(** ** The delay of a regenerated animation *)

Lemma gifDelay_positive (m : Q) :
  (0 < m)%Q -> gifDelay (Some m) = Qfloor (500 / m + (1 # 2))%Q.
Proof.
  intros Hm. unfold gifDelay, Js.Math_round.
  destruct (Qeq_bool m 0) eqn:Hz; [|reflexivity].
  apply Qeq_bool_eq in Hz. rewrite Hz in Hm. discriminate Hm.
Qed.

(** ** Directory metadata *)

Section Metadata.
Context `{Runtime}.

Lemma ensureDir_file fs dir0 dir name :
  fs_file (ensureDir fs dir0) dir name = fs_file fs dir name.
Proof.
  unfold ensureDir, fs_file.
  destruct (fs !! dir0) eqn:Hd0; [reflexivity|].
  destruct (decide (dir = dir0)) as [-> | Hne].
  - rewrite lookup_insert_eq, Hd0. reflexivity.
  - rewrite lookup_insert_ne; [reflexivity | congruence].
Qed.

Lemma ensureDir_exists fs dir : is_Some (fs !! dir) -> ensureDir fs dir = fs.
Proof. intros [d Hd]. unfold ensureDir. by rewrite Hd. Qed.

Lemma ensureDir_is_Some fs dir : is_Some (ensureDir fs dir !! dir).
Proof.
  unfold ensureDir. destruct (fs !! dir) eqn:Hd; [by rewrite Hd|].
  rewrite lookup_insert_eq. eauto.
Qed.

Lemma saveMetadata_exists fs dir target now :
  is_Some (fs_file fs dir "metadata.json") -> saveMetadata fs dir target now = Ok fs.
Proof. intros [data Hm]. unfold saveMetadata, fs_access. by rewrite Hm. Qed.

Lemma saveMetadata_absent fs dir target now :
  is_Some (fs !! dir) ->
  fs_file fs dir "metadata.json" = None ->
  exists fs',
    saveMetadata fs dir target now = Ok fs' /\
    fs_writeFile fs dir "metadata.json"
      (JSON_stringify_metadata target (toISOString now)) = Ok fs'.
Proof.
  intros Hdir Hm. unfold saveMetadata, fs_access. rewrite Hm.
  destruct (fs_writeFile_is_ok fs dir "metadata.json"
              (JSON_stringify_metadata target (toISOString now)) Hdir) as [fs' Hw].
  eauto.
Qed.

(** The disk after a start with a URL. *)
Lemma start_disk target sessionId now w :
  target ≠ EmptyString ->
  let dir := path_join "captures" (urlToDirectory target) in
  exists fs',
    saveMetadata (ensureDir (disk w) dir) dir target now = Ok fs' /\
    disk (start (Some target) sessionId now w).1 = fs' /\
    let existingData := loadExistingSession fs' dir in
    sessions (start (Some target) sessionId now w).1 =
      <[sessionId := {| url := target; dirName := urlToDirectory target; sessionDir := dir;
                        images := existing_images existingData;
                        captureCount := existing_captureCount existingData |}]>
        (sessions w) /\
    (start (Some target) sessionId now w).2 =
      Some (StartResponse sessionId (urlToDirectory target)
              (existing_captureCount existingData)
              (0 <? existing_captureCount existingData)%nat).
Proof.
  intros Hurl dir. unfold start. destruct target as [|c target]; [done|].
  fold dir.
  destruct (fs_file (ensureDir (disk w) dir) dir "metadata.json") as [data|] eqn:Hm.
  - rewrite saveMetadata_exists by (rewrite Hm; eauto). eauto.
  - destruct (saveMetadata_absent (ensureDir (disk w) dir) dir (String c target) now
                (ensureDir_is_Some _ _) Hm) as (fs' & -> & _). eauto.
Qed.

(** No request changes or removes an existing metadata file. *)
Lemma handle_keeps_metadata w r dir data :
  fs_file (disk w) dir "metadata.json" = Some data ->
  fs_file (disk (handle w r).1) dir "metadata.json" = Some data.
Proof.
  intros Hm. destruct r as [body_url sessionId now|sessionId net now|sessionId|sessionId speed];
    cbn [handle].
  - destruct body_url as [target|]; [|exact Hm].
    destruct (decide (target = EmptyString)) as [-> | Hurl]; [exact Hm|].
    destruct (start_disk target sessionId now w Hurl) as (fs' & Hsave & -> & _).
    set (dir0 := path_join "captures" (urlToDirectory target)) in *.
    assert (fs_file (ensureDir (disk w) dir0) dir "metadata.json" = Some data) as Hm1.
    { rewrite ensureDir_file. exact Hm. }
    unfold saveMetadata, fs_access in Hsave.
    destruct (fs_file (ensureDir (disk w) dir0) dir0 "metadata.json") eqn:Hm0.
    + by injection Hsave as <-.
    + rewrite (fs_file_writeFile _ _ _ _ _ _ _ Hsave).
      case_bool_decide as Hsame; [|exact Hm1].
      destruct Hsame as [-> _]. congruence.
  - destruct (capture sessionId net now w) as [w' response] eqn:Hc. cbn [fst].
    pose proof (capture_path sessionId net now w) as Hp. rewrite Hc in Hp. cbn [fst snd] in Hp.
    destruct Hp as [Hnone|s0 m Hs0|s0 d0 Hs0 Hf Hl|s0 d0 fs1 r0 Hs0 Hf Hw s' Hr];
      try exact Hm.
    cbn [disk]. rewrite generateGif_file by discriminate.
    rewrite (fs_file_writeFile _ _ _ _ _ _ _ Hw).
    rewrite bool_decide_eq_false_2; [exact Hm|].
    intros [_ Hname]. symmetry in Hname. by apply imageName_not_metadata in Hname.
  - exact Hm.
  - unfold generate_gif. destruct (sessions w !! sessionId) as [s|]; [|exact Hm].
    destruct (generateGif (disk w) (sessionDir s) (images s) (gifDelay speed))
      as [fs' r] eqn:Hg.
    assert (fs_file fs' dir "metadata.json" = Some data) as Hm'.
    { replace fs' with (generateGif (disk w) (sessionDir s) (images s) (gifDelay speed)).1
        by (by rewrite Hg).
      rewrite generateGif_file by discriminate. exact Hm. }
    destruct r; exact Hm'.
Qed.

Lemma serve_keeps_metadata requests w dir data :
  fs_file (disk w) dir "metadata.json" = Some data ->
  fs_file (disk (serve w requests)) dir "metadata.json" = Some data.
Proof.
  revert w. induction requests as [|r requests IH]; intros w Hm; [exact Hm|].
  cbn [serve]. apply IH. by apply handle_keeps_metadata.
Qed.

End Metadata.

(** C7.  The first start for a URL whose directory has no metadata file
    writes one, with the URL and the time of that start.  A start that finds
    a metadata file leaves the whole disk as it is.  No later request touches
    the file: after any requests and a second start for the same URL it has
    the content the first start left. *)
Theorem metadata_written_once `{Runtime} target sessionId1 now1 requests sessionId2 now2 w :
  target ≠ EmptyString ->
  let dir := path_join "captures" (urlToDirectory target) in
  let w1 := (start (Some target) sessionId1 now1 w).1 in
  let w2 := serve w1 requests in
  let w3 := (start (Some target) sessionId2 now2 w2).1 in
  (fs_file (disk w) dir "metadata.json" = None ->
   fs_file (disk w1) dir "metadata.json"
     = Some (JSON_stringify_metadata target (toISOString now1))) /\
  (is_Some (fs_file (disk w) dir "metadata.json") -> disk w1 = disk w) /\
  is_Some (fs_file (disk w1) dir "metadata.json") /\
  fs_file (disk w2) dir "metadata.json" = fs_file (disk w1) dir "metadata.json" /\
  disk w3 = disk w2 /\
  fs_file (disk w3) dir "metadata.json" = fs_file (disk w1) dir "metadata.json".
Proof.
  intros Hurl dir w1 w2 w3.
  assert (forall sessionId now w0,
            is_Some (fs_file (disk w0) dir "metadata.json") ->
            disk (start (Some target) sessionId now w0).1 = disk w0) as Hnoop.
  { intros sessionId now w0 Hm.
    destruct (start_disk target sessionId now w0 Hurl) as (fs' & Hsave & -> & _).
    fold dir in Hsave.
    assert (is_Some (disk w0 !! dir)) as Hdir by (destruct Hm; by eapply fs_file_dir).
    rewrite (ensureDir_exists _ _ Hdir), (saveMetadata_exists _ _ _ _ Hm) in Hsave.
    congruence. }
  assert (is_Some (fs_file (disk w1) dir "metadata.json")) as Hm1.
  { subst w1. destruct (start_disk target sessionId1 now1 w Hurl) as (fs' & Hsave & -> & _).
    fold dir in Hsave. unfold saveMetadata, fs_access in Hsave.
    destruct (fs_file (ensureDir (disk w) dir) dir "metadata.json") eqn:Hm0.
    - injection Hsave as <-. rewrite Hm0. eauto.
    - rewrite (fs_file_writeFile _ _ _ _ _ _ _ Hsave).
      rewrite bool_decide_eq_true_2; eauto. }
  assert (fs_file (disk w2) dir "metadata.json" = fs_file (disk w1) dir "metadata.json")
    as Hm2.
  { destruct Hm1 as [data Hm1]. rewrite Hm1. by apply serve_keeps_metadata. }
  assert (disk w3 = disk w2) as Hw3 by (apply Hnoop; by rewrite Hm2).
  split; [|split; [|split; [|split; [|split]]]].
  2:{ intros Hm. by apply Hnoop. }
  2:{ exact Hm1. }
  2:{ exact Hm2. }
  2:{ exact Hw3. }
  - intros Hnone. subst w1.
    destruct (start_disk target sessionId1 now1 w Hurl) as (fs' & Hsave & -> & _).
    fold dir in Hsave. unfold saveMetadata, fs_access in Hsave.
    assert (fs_file (ensureDir (disk w) dir) dir "metadata.json" = None) as Hm0
      by (rewrite ensureDir_file; exact Hnone).
    rewrite Hm0 in Hsave. rewrite (fs_file_writeFile _ _ _ _ _ _ _ Hsave).
    rewrite bool_decide_eq_true_2; done.
  - by rewrite Hw3.
Qed.

Lemma metadata_written_once_witness :
  let dir := path_join "captures" (@urlToDirectory test_runtime camera_url) in
  let w1 := (@start test_runtime (Some camera_url) "s1" 1700000000000 (boot ∅)).1 in
  let w2 := @serve test_runtime w1
              (captures "s1" (origin_serves frame_A) [1700000030000; 1700000060000]) in
  let w3 := (@start test_runtime (Some camera_url) "s2" 1700000090000 w2).1 in
  fs_file (disk w3) dir "metadata.json"
    = Some (@JSON_stringify_metadata test_runtime camera_url
              (@toISOString test_runtime 1700000000000)).
Proof.
  destruct (@metadata_written_once test_runtime camera_url "s1" 1700000000000
              (captures "s1" (origin_serves frame_A) [1700000030000; 1700000060000])
              "s2" 1700000090000 (boot ∅) ltac:(discriminate))
    as (Hfirst & _ & _ & _ & _ & Hlast).
  cbv zeta. rewrite Hlast. apply Hfirst. reflexivity.
Defined.

(** ** Sorting by timestamp *)

Section Sorting.

Lemma sort_insert_Permutation {A} (comparefn : A -> A -> option Z) x l :
  sort_insert comparefn x l ≡ₚ x :: l.
Proof.
  induction l as [|y l IH]; [reflexivity|]. cbn [sort_insert].
  destruct (sortCompare comparefn x y <=? 0); [reflexivity|].
  rewrite IH. apply perm_swap.
Qed.

Lemma Array_sort_Permutation {A} (comparefn : A -> A -> option Z) l :
  Array_sort comparefn l ≡ₚ l.
Proof.
  induction l as [|x l IH]; [reflexivity|]. cbn [Array_sort].
  rewrite sort_insert_Permutation. by rewrite IH.
Qed.

Lemma timestamp_le_trans a b c : timestamp_le a b -> timestamp_le b c -> timestamp_le a c.
Proof.
  unfold timestamp_le. intros (ta & tb & Ha & Hb & Hab) (tb' & tc & Hb' & Hc & Hbc).
  exists ta, tc. split; [done|]. split; [done|]. assert (tb = tb') by congruence. lia.
Qed.

(** On names with a timestamp the comparator decides [timestamp_le]. *)
Lemma sortCompare_timestamps a b :
  is_Some (getTimestamp a) -> is_Some (getTimestamp b) ->
  if sortCompare compareTimestamps a b <=? 0 then timestamp_le a b
  else timestamp_le b a.
Proof.
  intros [ta Ha] [tb Hb]. unfold sortCompare, compareTimestamps, timestamp_le.
  rewrite Ha, Hb.
  cbn [default from_option]. unfold id. destruct (ta - tb <=? 0) eqn:Hc.
  - apply Z.leb_le in Hc. exists ta, tb. split; [done|]. split; [done | lia].
  - apply Z.leb_gt in Hc. exists tb, ta. split; [done|]. split; [done | lia].
Qed.

Lemma sort_insert_sorted x l :
  is_Some (getTimestamp x) ->
  Forall (fun y => is_Some (getTimestamp y)) l ->
  StronglySorted timestamp_le l ->
  StronglySorted timestamp_le (sort_insert compareTimestamps x l).
Proof.
  intros Hx Hl Hsorted. induction Hsorted as [|y l Hsorted IH Hy].
  - repeat constructor.
  - apply Forall_cons in Hl as [Hty Hl]. cbn [sort_insert].
    pose proof (sortCompare_timestamps x y Hx Hty) as Hc.
    destruct (sortCompare compareTimestamps x y <=? 0).
    + constructor; [by constructor|]. constructor; [exact Hc|].
      eapply Forall_impl; [exact Hy|]. intros z Hz. by eapply timestamp_le_trans.
    + constructor; [by apply IH|].
      rewrite sort_insert_Permutation. by constructor.
Qed.

Lemma Array_sort_sorted l :
  Forall (fun y => is_Some (getTimestamp y)) l ->
  StronglySorted timestamp_le (Array_sort compareTimestamps l).
Proof.
  induction l as [|x l IH]; intros Hl; [constructor|].
  apply Forall_cons in Hl as [Hx Hl]. cbn [Array_sort].
  apply sort_insert_sorted; [exact Hx | | by apply IH].
  by rewrite Array_sort_Permutation.
Qed.

End Sorting.

(** ** Loading the frames of a directory *)

Section Loading.

Lemma loadExistingSession_absent fs dir :
  fs !! dir = None ->
  loadExistingSession fs dir = {| existing_images := []; existing_captureCount := 0 |}.
Proof. intros Hd. unfold loadExistingSession, fs_readdir. by rewrite Hd. Qed.

Lemma loadExistingSession_count fs dir :
  existing_captureCount (loadExistingSession fs dir)
    = length (existing_images (loadExistingSession fs dir)).
Proof. unfold loadExistingSession. destruct (fs_readdir fs dir); reflexivity. Qed.

Lemma loadExistingSession_Permutation fs dir d :
  fs !! dir = Some d ->
  existing_images (loadExistingSession fs dir)
    ≡ₚ filter (fun f => isFrameFile f = true) (map_to_list d).*1.
Proof.
  intros Hd. unfold loadExistingSession, fs_readdir. rewrite Hd. cbn [existing_images].
  apply Array_sort_Permutation.
Qed.

Lemma elem_of_frameFiles fs dir f :
  f ∈ frameFiles fs dir <-> isFrameFile f = true /\ is_Some (fs_file fs dir f).
Proof.
  unfold frameFiles, fs_file. rewrite elem_of_filter, elem_of_dom.
  destruct (fs !! dir) as [d|]; cbn [default mbind option_bind]; [reflexivity|].
  rewrite lookup_empty. reflexivity.
Qed.

Lemma loadExistingSession_elem_of fs dir f :
  f ∈ existing_images (loadExistingSession fs dir) <-> f ∈ frameFiles fs dir.
Proof.
  rewrite elem_of_frameFiles. destruct (fs !! dir) as [d|] eqn:Hd.
  - rewrite (loadExistingSession_Permutation _ _ _ Hd), list_elem_of_filter.
    unfold fs_file. rewrite Hd. cbn [mbind option_bind].
    rewrite list_elem_of_fmap. split.
    + intros [Hf ([k v] & -> & Hkv)]. apply elem_of_map_to_list in Hkv. eauto.
    + intros [Hf [v Hv]]. split; [exact Hf|]. exists (f, v).
      split; [reflexivity | by apply elem_of_map_to_list].
  - rewrite (loadExistingSession_absent _ _ Hd). unfold fs_file. rewrite Hd.
    cbn [existing_images mbind option_bind]. split.
    + intros Hf. by apply elem_of_nil in Hf.
    + intros [_ [v Hv]]. discriminate Hv.
Qed.

Lemma loadExistingSession_NoDup fs dir :
  NoDup (existing_images (loadExistingSession fs dir)).
Proof.
  destruct (fs !! dir) as [d|] eqn:Hd.
  - rewrite (loadExistingSession_Permutation _ _ _ Hd).
    apply NoDup_filter, NoDup_fst_map_to_list.
  - rewrite (loadExistingSession_absent _ _ Hd). constructor.
Qed.

(** The loaded count is the number of recognized frame files on disk. *)
Lemma loadExistingSession_size fs dir :
  existing_captureCount (loadExistingSession fs dir) = size (frameFiles fs dir).
Proof.
  rewrite loadExistingSession_count. unfold size, set_size. cbn.
  apply Permutation_length, NoDup_Permutation.
  - apply loadExistingSession_NoDup.
  - apply NoDup_elements.
  - intros f. rewrite loadExistingSession_elem_of, elem_of_elements. reflexivity.
Qed.

Lemma loadExistingSession_sorted fs dir :
  (forall f, f ∈ frameFiles fs dir -> is_Some (getTimestamp f)) ->
  StronglySorted timestamp_le (existing_images (loadExistingSession fs dir)).
Proof.
  intros Hts. unfold loadExistingSession, fs_readdir.
  destruct (fs !! dir) as [d|] eqn:Hd; cbn [existing_images]; [|constructor].
  apply Array_sort_sorted, Forall_forall. intros f Hf. apply Hts.
  apply loadExistingSession_elem_of.
  by rewrite (loadExistingSession_Permutation _ _ _ Hd).
Qed.

End Loading.

Section Resuming.
Context `{Runtime}.

(** A start writes no file but the metadata. *)
Lemma start_file target sessionId now w dir name :
  target ≠ EmptyString ->
  name ≠ "metadata.json"%string ->
  fs_file (disk (start (Some target) sessionId now w).1) dir name = fs_file (disk w) dir name.
Proof.
  intros Hurl Hname.
  destruct (start_disk target sessionId now w Hurl) as (fs' & Hsave & -> & _).
  unfold saveMetadata in Hsave.
  destruct (fs_access _ _ _).
  - injection Hsave as <-. apply ensureDir_file.
  - rewrite (fs_file_writeFile _ _ _ _ _ _ _ Hsave).
    rewrite bool_decide_eq_false_2 by tauto. apply ensureDir_file.
Qed.

Lemma start_frameFiles target sessionId now w dir :
  target ≠ EmptyString ->
  frameFiles (disk (start (Some target) sessionId now w).1) dir = frameFiles (disk w) dir.
Proof.
  intros Hurl. apply set_eq. intros f. rewrite !elem_of_frameFiles.
  destruct (decide (f = "metadata.json"%string)) as [-> | Hf].
  - split; intros [Hframe _]; vm_compute in Hframe; discriminate Hframe.
  - by rewrite start_file.
Qed.

End Resuming.






(** ** The counter and the order of the frame sequence *)

Section SessionInvariant.
Context `{Runtime}.

Lemma handle_countMatches w r : countMatches w -> countMatches (handle w r).1.
Proof.
  intros Hw.
  destruct r as [body_url sessionId now|sessionId net now|sessionId|sessionId speed];
    cbn [handle].
  - destruct body_url as [target|]; [|exact Hw].
    destruct (decide (target = EmptyString)) as [-> | Hurl]; [exact Hw|].
    destruct (start_disk target sessionId now w Hurl) as (fs' & _ & _ & Hsessions & _).
    intros sid s. rewrite Hsessions. destruct (decide (sid = sessionId)) as [-> | Hne].
    + rewrite lookup_insert_eq. intros [= <-]. apply loadExistingSession_count.
    + rewrite lookup_insert_ne by done. apply Hw.
  - destruct (capture sessionId net now w) as [w' response] eqn:Hc. cbn [fst].
    pose proof (capture_path sessionId net now w) as Hp. rewrite Hc in Hp. cbn [fst snd] in Hp.
    destruct Hp as [Hnone|s0 m Hs0|s0 d0 Hs0 Hf Hl|s0 d0 fs1 r0 Hs0 Hf Hw0 s' Hr];
      try exact Hw.
    intros sid s. cbn [sessions]. destruct (decide (sid = sessionId)) as [-> | Hne].
    + rewrite lookup_insert_eq. intros [= <-]. unfold s', recordCapture.
      cbn [captureCount images]. rewrite length_app, (Hw _ _ Hs0). cbn. lia.
    + rewrite lookup_insert_ne by done. apply Hw.
  - exact Hw.
  - unfold generate_gif. destruct (sessions w !! sessionId) as [s|]; [|exact Hw].
    destruct (generateGif (disk w) (sessionDir s) (images s) (gifDelay speed)) as [fs' [g|m]];
      exact Hw.
Qed.

Lemma serve_countMatches requests w : countMatches w -> countMatches (serve w requests).
Proof.
  revert w. induction requests as [|r requests IH]; intros w Hw; [exact Hw|].
  cbn [serve]. by apply IH, handle_countMatches.
Qed.

Lemma StronglySorted_snoc {A} (R : A -> A -> Prop) l y :
  StronglySorted R l -> Forall (fun x => R x y) l -> StronglySorted R (l ++ [y]).
Proof.
  intros Hsorted. induction Hsorted as [|x l Hsorted IH Hx]; intros Hl.
  - repeat constructor.
  - apply Forall_cons in Hl as [Hxy Hl]. cbn. constructor; [by apply IH|].
    apply Forall_app. split; [exact Hx | by constructor].
Qed.

(** Captures append to a frame sequence that is in the order of the
    timestamps, as long as the clock does not run backwards. *)
Lemma serve_captures_ordered sessionId steps w s bound :
  sessions w !! sessionId = Some s ->
  captureCount s = length (images s) ->
  StronglySorted timestamp_le (images s) ->
  (forall f, f ∈ images s -> exists t, getTimestamp f = Some t /\ t <= bound) ->
  0 <= bound ->
  StronglySorted Z.le (bound :: steps.*2) ->
  exists s',
    sessions (serve w (captureRequests sessionId steps)) !! sessionId = Some s' /\
    captureCount s' = length (images s') /\
    images s `prefix_of` images s' /\
    StronglySorted timestamp_le (images s').
Proof.
  revert w s bound. induction steps as [|[net now] steps IH];
    intros w s bound Hs Hcount Hsorted Hts Hbound Hclock.
  - exists s. split; [exact Hs|]. split; [exact Hcount|]. split; [reflexivity | exact Hsorted].
  - cbn [captureRequests map serve handle fst snd].
    apply StronglySorted_inv in Hclock as [Hclock Hle].
    cbn [fmap list_fmap snd] in Hle, Hclock.
    apply Forall_cons in Hle as [Hnow Hle].
    destruct (capture sessionId net now w) as [w' response] eqn:Hc. cbn [fst].
    pose proof (capture_path sessionId net now w) as Hp. rewrite Hc in Hp. cbn [fst snd] in Hp.
    assert (forall f, f ∈ images s -> exists t, getTimestamp f = Some t /\ t <= now) as Hts'.
    { intros f Hf. destruct (Hts f Hf) as (t & Ht & Hle'). exists t. split; [done | lia]. }
    destruct Hp as [Hnone|s0 m Hs0|s0 d0 Hs0 Hf Hl|s0 d0 fs1 r0 Hs0 Hf Hw0 s' Hr];
      try (apply (IH w s now); auto; lia).
    assert (s0 = s) as -> by congruence.
    set (name := imageName (captureCount s) now) in *.
    destruct (IH {| disk := (generateGif fs1 (sessionDir s) (images s') 500).1;
                    sessions := <[sessionId := s']> (sessions w) |} s' now)
      as (s'' & Hs'' & Hcount'' & Hprefix & Hsorted'').
    + cbn [sessions]. apply lookup_insert_eq.
    + unfold s', recordCapture. cbn [captureCount images].
      rewrite length_app, Hcount. cbn. lia.
    + unfold s', recordCapture. cbn [images]. apply StronglySorted_snoc; [exact Hsorted|].
      apply Forall_forall. intros f Hf'. destruct (Hts' f Hf') as (t & Ht & Hle').
      exists t, now. split; [exact Ht|]. split; [|exact Hle'].
      apply getTimestamp_imageName. lia.
    + unfold s', recordCapture. cbn [images]. intros f Hf'.
      apply elem_of_app in Hf' as [Hf' | Hf']; [by apply Hts'|].
      apply list_elem_of_singleton in Hf' as ->. exists now. split; [|lia].
      apply getTimestamp_imageName. lia.
    + lia.
    + exact Hclock.
    + exists s''. split; [exact Hs''|]. split; [exact Hcount''|]. split; [|exact Hsorted''].
      etransitivity; [|exact Hprefix]. unfold s', recordCapture. cbn [images].
      by apply prefix_app_r.
Qed.

End SessionInvariant.

(** C3, counterexample.  A fresh session captures [frame_A] at the clock
    reading 2000 and then [frame_B] at 1500, the clock having been set back;
    its frame sequence is in the order of the captures.  After a restart of
    the server a session resuming the directory lists the same two frames in
    the order of their timestamps, which is the reverse of the order in
    which they were captured. *)
Lemma resumed_order_is_not_capture_order :
  let first_run :=
    @serve test_runtime (boot ∅)
      [PostStart (Some camera_url) "s1" 1000;
       PostCapture "s1" (origin_serves frame_A) 2000;
       PostCapture "s1" (origin_serves frame_B) 1500] in
  let resumed :=
    (@start test_runtime (Some camera_url) "s2" 3000 (boot (disk first_run))).1 in
  images <$> sessions first_run !! "s1"%string
    = Some ["image_00000_2000.png"; "image_00001_1500.png"]%string /\
  images <$> sessions resumed !! "s2"%string
    = Some ["image_00001_1500.png"; "image_00000_2000.png"]%string /\
  captureCount <$> sessions resumed !! "s2"%string = Some 2%nat.
Proof.
  cbv zeta. split; [vm_compute; reflexivity|]. split; vm_compute; reflexivity.
Qed.

(** C3, as the code has it.  From the boot of the server and through every
    sequence of requests, [captureCount] of every session is the length of
    its frame sequence.  A start loads the frames of the directory in the
    order of the timestamps in their names, and captures append to that
    sequence.  So when the frames on disk carry timestamps not after the
    start, the clock readings of the captures do not decrease, and all of
    them are integers that a number holds exactly, the frame sequence of the
    session begins with the loaded frames and is in the order of the capture
    times of its frames. *)
Theorem count_is_length_and_order_is_temporal `{Runtime} :
  (forall fs requests, countMatches (serve (boot fs) requests)) /\
  (forall w target sessionId now steps,
     target ≠ EmptyString ->
     let dir := path_join "captures" (urlToDirectory target) in
     let w0 := (start (Some target) sessionId now w).1 in
     (forall f, f ∈ frameFiles (disk w) dir ->
                exists t, getTimestamp f = Some t /\ safe_integer t /\ t <= now) ->
     0 <= now ->
     Forall safe_integer (now :: steps.*2) ->
     StronglySorted Z.le (now :: steps.*2) ->
     exists s,
       sessions (serve w0 (captureRequests sessionId steps)) !! sessionId = Some s /\
       captureCount s = length (images s) /\
       existing_images (loadExistingSession (disk w0) dir) `prefix_of` images s /\
       StronglySorted timestamp_le (images s)).
Proof.
  split.
  - intros fs requests. apply serve_countMatches.
    intros sessionId s Hs. cbn in Hs. by rewrite lookup_empty in Hs.
  - intros w target sessionId now steps Hurl dir w0 Hdisk Hnow _ Hclock.
    destruct (start_disk target sessionId now w Hurl) as (fs' & _ & Hfs' & Hsessions & _).
    fold dir in Hsessions. fold w0 in Hfs', Hsessions.
    assert (forall f, f ∈ frameFiles (disk w0) dir ->
                      exists t, getTimestamp f = Some t /\ t <= now) as Hdisk0.
    { intros f Hf. destruct (Hdisk f) as (t & Ht & _ & Hle); [|eauto].
      subst w0. by rewrite start_frameFiles in Hf. }
    rewrite <- Hfs' in Hsessions.
    set (s0 := {| url := target; dirName := urlToDirectory target; sessionDir := dir;
                  images := existing_images (loadExistingSession (disk w0) dir);
                  captureCount := existing_captureCount (loadExistingSession (disk w0) dir) |})
      in *.
    change (existing_images (loadExistingSession (disk w0) dir)) with (images s0).
    apply (serve_captures_ordered sessionId steps w0 s0 now).
    + rewrite Hsessions. apply lookup_insert_eq.
    + apply loadExistingSession_count.
    + apply loadExistingSession_sorted. intros f Hf.
      destruct (Hdisk0 f Hf) as (t & -> & _). eauto.
    + intros f Hf. apply Hdisk0. by apply loadExistingSession_elem_of.
    + exact Hnow.
    + exact Hclock.
Qed.

Lemma count_is_length_and_order_is_temporal_witness :
  let dir := path_join "captures" (@urlToDirectory test_runtime camera_url) in
  let steps := [(origin_serves frame_A, 1700000030000);
                (origin_serves frame_A, 1700000060000);
                (origin_serves frame_B, 1700000090000)] in
  let w0 := (@start test_runtime (Some camera_url) "s1" 1700000000000 (boot resumed_disk)).1 in
  exists s,
    sessions (@serve test_runtime w0 (captureRequests "s1" steps)) !! "s1"%string = Some s /\
    captureCount s = length (images s) /\
    StronglySorted timestamp_le (images s) /\
    images s = ["image_00000_900.png"; "image_00001_1000.png"; "image_00000_2000.png";
                "image_00003_1700000030000.png"; "image_00004_1700000090000.png"]%string.
Proof.
  intros dir steps w0.
  destruct (@count_is_length_and_order_is_temporal test_runtime) as [_ Horder].
  destruct (Horder (boot resumed_disk) camera_url "s1"%string 1700000000000 steps)
    as (s & Hs & Hcount & _ & Hsorted).
  - discriminate.
  - intros f Hf. fold dir in Hf. apply loadExistingSession_elem_of in Hf.
    assert (existing_images (loadExistingSession resumed_disk dir)
            = ["image_00000_900.png"; "image_00001_1000.png"; "image_00000_2000.png"]%string)
      as Himages by (vm_compute; reflexivity).
    cbn [boot disk] in Hf. rewrite Himages in Hf.
    repeat (apply elem_of_cons in Hf as [-> | Hf]).
    + exists 900. split; [vm_compute; reflexivity | unfold safe_integer; lia].
    + exists 1000. split; [vm_compute; reflexivity | unfold safe_integer; lia].
    + exists 2000. split; [vm_compute; reflexivity | unfold safe_integer; lia].
    + apply elem_of_nil in Hf. destruct Hf.
  - lia.
  - repeat constructor; unfold safe_integer; cbn; lia.
  - repeat constructor; cbn; lia.
  - exists s. split; [exact Hs|]. split; [exact Hcount|]. split; [exact Hsorted|].
    assert (images <$> sessions (@serve test_runtime w0 (captureRequests "s1" steps))
                         !! "s1"%string
            = Some ["image_00000_900.png"; "image_00001_1000.png"; "image_00000_2000.png";
                    "image_00003_1700000030000.png"; "image_00004_1700000090000.png"]%string)
      as Hrun by (vm_compute; reflexivity).
    fold dir w0 in Hs. rewrite Hs in Hrun. by injection Hrun.
Defined.
Example String_of_ex : Js.String_of 1730505600000 = "1730505600000"%string.
Proof. vm_compute. reflexivity. Qed.
Example String_of_0 : Js.String_of 0 = "0"%string.
Proof. vm_compute. reflexivity. Qed.
Example parseInt_ex : Js.parseInt "1730505600000" = Some 1730505600000.
Proof. vm_compute. reflexivity. Qed.
Example parseInt_nan : Js.parseInt "foo" = None.
Proof. vm_compute. reflexivity. Qed.
Example parseInt_png : Js.parseInt "5.png" = Some 5.
Proof. vm_compute. reflexivity. Qed.
Example split_ex : Js.split "image_00001_12" "_" = ["image"; "00001"; "12"]%string.
Proof. vm_compute. reflexivity. Qed.
Example replace_ex : Js.replace "image_1_2.png" ".png" "" = "image_1_2"%string.
Proof. vm_compute. reflexivity. Qed.
Example padStart_ex : Js.padStart (Js.String_of 7) 5 "0" = "00007"%string.
Proof. vm_compute. reflexivity. Qed.
Example round_ex : Js.Math_round (500 / 3)%Q = 167.
Proof. vm_compute. reflexivity. Qed.

(** * Further properties of the code *)

(** ** Printing and parsing integers *)

Lemma parseInt_minus_digits c ds :
  string_forall is_digit (String c ds) = true ->
  Js.parseInt (String "-" (String c ds)) = Z.mul (-1) <$> Js.parse_digits 10 (String c ds) None.
Proof.
  simpl. intros [Hc Hds]%andb_true_iff.
  destruct ds as [|x ds].
  - apply is_digit_cases in Hc.
    repeat (apply elem_of_cons in Hc as [-> | Hc]); try (apply elem_of_nil in Hc; destruct Hc);
      reflexivity.
  - simpl in Hds. apply andb_true_iff in Hds as [Hx _].
    apply is_digit_cases in Hc. apply is_digit_cases in Hx.
    repeat (apply elem_of_cons in Hc as [-> | Hc]); try (apply elem_of_nil in Hc; destruct Hc);
      repeat (apply elem_of_cons in Hx as [-> | Hx]); try (apply elem_of_nil in Hx; destruct Hx);
      reflexivity.
Qed.

(** [parseInt(String(n))] is [n] for every integer [n], negative ones
    included. *)
Lemma parseInt_String_of_any (n : Z) : Js.parseInt (Js.String_of n) = Some n.
Proof.
  destruct (Z.le_gt_cases 0 n) as [Hn | Hn]; [by apply parseInt_String_of|].
  unfold Js.String_of. destruct (n <? 0) eqn:Hneg; [|apply Z.ltb_ge in Hneg; lia].
  assert (0 <= - n) as Hpos by lia.
  destruct (digits_of_app (Z.to_nat (Z.log2 (- n))) (- n) EmptyString Hpos)
    as (c & ds & Hds & Heq).
  rewrite string_app_nil_r in Heq. rewrite Heq, (parseInt_minus_digits _ _ Hds), <- Heq.
  rewrite parse_digits_of by (split; [exact Hpos | by apply log2_fuel]).
  cbn [fmap option_fmap option_map Js.parse_digits]. f_equal. lia.
Qed.

(** ** Directory names *)

Lemma take_length n s : (String.length (Js.take n s) <= n)%nat.
Proof.
  revert s. induction n as [|n IH]; intros [|c s]; cbn; try lia.
  specialize (IH s). lia.
Qed.

Lemma take_forall p n s : string_forall p s = true -> string_forall p (Js.take n s) = true.
Proof.
  revert s. induction n as [|n IH]; intros [|c s]; cbn; try reflexivity.
  intros [Hc Hs]%andb_true_iff. by rewrite Hc, IH.
Qed.

Lemma string_length_app a b : String.length (a +:+ b) = (String.length a + String.length b)%nat.
Proof.
  induction a as [|c a IH]; [reflexivity|].
  change (S (String.length (a +:+ b)) = S (String.length a + String.length b)).
  by rewrite IH.
Qed.

Lemma sanitize_is_dir_char c : is_dir_char (sanitize c) = true.
Proof.
  unfold sanitize, is_dir_char. destruct (is_alnum c) eqn:Hc; [by rewrite Hc | reflexivity].
Qed.

Lemma map_sanitize_forall s : string_forall is_dir_char (map_string sanitize s) = true.
Proof.
  induction s as [|c s IH]; cbn [map_string string_forall]; [reflexivity|].
  by rewrite sanitize_is_dir_char, IH.
Qed.

Lemma is_dir_char_not x : is_dir_char x = false -> forall c, is_dir_char c = true ->
  char_is_not x c = true.
Proof.
  intros Hx c Hc. unfold char_is_not.
  destruct (Ascii.eqb_spec c x) as [-> | _]; [congruence | reflexivity].
Qed.

(** X2.  The directory name of a URL is at most 39 characters long.  When
    the digest is made of letters and digits, as a hexadecimal digest is, the
    name is made of letters, digits and underscores: it holds no slash and no
    dot, so it names one directory below [captures]. *)
Theorem urlToDirectory_is_one_component `{Runtime} (target : string) :
  (String.length (urlToDirectory target) <= 39)%nat /\
  (string_forall is_alnum (md5_hex target) = true ->
   string_forall is_dir_char (urlToDirectory target) = true /\
   string_forall (char_is_not "/") (urlToDirectory target) = true /\
   string_forall (char_is_not ".") (urlToDirectory target) = true).
Proof.
  unfold urlToDirectory. fold sanitize. split.
  - rewrite !string_length_app. cbn [String.length].
    pose proof (take_length 30 (map_string sanitize (strip_scheme target))).
    pose proof (take_length 8 (md5_hex target)). lia.
  - intros Hhash.
    assert (string_forall is_dir_char
              (Js.take 30 (map_string sanitize (strip_scheme target)) +:+ "_"
               +:+ Js.take 8 (md5_hex target)) = true) as Hall.
    { rewrite !string_forall_app.
      rewrite (take_forall _ _ _ (map_sanitize_forall _)). cbn [string_forall andb].
      apply take_forall. revert Hhash. apply string_forall_impl.
      intros c Hc. unfold is_dir_char. by rewrite Hc. }
    split; [exact Hall|].
    split; (revert Hall; apply string_forall_impl, is_dir_char_not; reflexivity).
Qed.

Lemma urlToDirectory_is_one_component_witness :
  string_forall (char_is_not "/") (@urlToDirectory test_runtime camera_url) = true.
Proof.
  destruct (@urlToDirectory_is_one_component test_runtime camera_url) as [_ Hsafe].
  apply Hsafe. vm_compute. reflexivity.
Defined.

Lemma strip_scheme_http rest : strip_scheme ("http://" +:+ rest) = rest.
Proof.
  unfold strip_scheme. rewrite (String_prefix_app "http://" rest). reflexivity.
Qed.

Lemma strip_scheme_https rest : strip_scheme ("https://" +:+ rest) = rest.
Proof.
  unfold strip_scheme. rewrite (String_prefix_app "https://" rest).
  replace (String.prefix "http://" ("https://" +:+ rest)) with false; reflexivity.
Qed.

(** X3.  The scheme is dropped once before the name is sanitized: the
    [http] and the [https] address of the same resource get directory names
    with the same readable part, told apart only by the digest.  A scheme in
    another case is not dropped. *)
Theorem urlToDirectory_drops_scheme `{Runtime} (rest : string) :
  let readable := Js.take 30 (map_string sanitize rest) in
  urlToDirectory ("http://" +:+ rest)
    = readable +:+ "_" +:+ Js.take 8 (md5_hex ("http://" +:+ rest)) /\
  urlToDirectory ("https://" +:+ rest)
    = readable +:+ "_" +:+ Js.take 8 (md5_hex ("https://" +:+ rest)) /\
  urlToDirectory ("HTTP://" +:+ rest)
    = Js.take 30 ("HTTP___" +:+ map_string sanitize rest)
      +:+ "_" +:+ Js.take 8 (md5_hex ("HTTP://" +:+ rest)).
Proof.
  intros readable. unfold urlToDirectory. fold sanitize.
  rewrite strip_scheme_http, strip_scheme_https. repeat split; reflexivity.
Qed.

(** ** Directories and files *)

(** X5.  [imagesAreIdentical] is true exactly when both files can be read
    and hold the same bytes; a file that cannot be read makes it false, no
    error.  It does not depend on the order of its arguments, and a readable
    file is identical to itself. *)
Theorem imagesAreIdentical_spec (fs : FS) (dir name1 name2 : string) :
  (imagesAreIdentical fs dir name1 name2 = true <->
   exists data, fs_file fs dir name1 = Some data /\ fs_file fs dir name2 = Some data) /\
  (fs_file fs dir name1 = None \/ fs_file fs dir name2 = None ->
   imagesAreIdentical fs dir name1 name2 = false) /\
  imagesAreIdentical fs dir name1 name2 = imagesAreIdentical fs dir name2 name1 /\
  (imagesAreIdentical fs dir name1 name1 = true <-> is_Some (fs_file fs dir name1)).
Proof.
  unfold imagesAreIdentical, fs_readFile, Buffer_equals.
  destruct (fs_file fs dir name1) as [d1|], (fs_file fs dir name2) as [d2|];
    (split; [|split; [|split]]); try (intros [? | ?]; congruence); try reflexivity.
  all: try (split; [discriminate | intros (? & ? & ?); congruence]).
  all: try (split; [discriminate | intros [? ?]; congruence]).
  - rewrite bool_decide_eq_true. split; [intros ->; eauto | intros (d & ? & ?); congruence].
  - apply bool_decide_ext. split; congruence.
  - rewrite bool_decide_eq_true. split; eauto.
  - rewrite bool_decide_eq_true. split; eauto.
Qed.

Lemma imagesAreIdentical_spec_witness :
  imagesAreIdentical abba_disk "captures/abba" "image_00000_1000.png" "missing.png" = false.
Proof.
  destruct (imagesAreIdentical_spec abba_disk "captures/abba" "image_00000_1000.png"
              "missing.png") as (_ & Hmissing & _).
  apply Hmissing. right. vm_compute. reflexivity.
Defined.

(** ** Captures of changing images *)

Section ChangingCaptures.
Context `{Runtime}.

Lemma capture_stored_dir sessionId (net : Network) now w s data :
  sessions w !! sessionId = Some s ->
  fetchImage net (url s) = Ok data ->
  lastFrameDiffers w s data ->
  is_Some (disk w !! sessionDir s) ->
  let s' := recordCapture s (imageName (captureCount s) now) in
  let w' := (capture sessionId net now w).1 in
  sessions w' !! sessionId = Some s' /\
  is_Some (disk w' !! sessionDir s') /\
  lastFrameIs w' s' data.
Proof.
  intros Hs Hf Hd Hdir s' w'.
  destruct (capture_stored sessionId net now w s data Hs Hf Hd Hdir) as (fs1 & Hw & Hw' & _).
  subst w'. rewrite Hw'. cbn [sessions disk]. split; [apply lookup_insert_eq|]. split.
  - apply generateGif_dirs. by apply (fs_writeFile_dirs _ _ _ _ _ _ Hw).
  - by apply stored_is_last.
Qed.

Lemma serve_changing sessionId steps datas w s :
  sessions w !! sessionId = Some s ->
  is_Some (disk w !! sessionDir s) ->
  Forall2 (fun step data => fetchImage step.1 (url s) = Ok data) steps datas ->
  match datas with
  | first :: _ => lastFrameDiffers w s first
  | [] => True
  end ->
  changing datas ->
  exists s',
    sessions (serve w (captureRequests sessionId steps)) !! sessionId = Some s' /\
    url s' = url s /\ sessionDir s' = sessionDir s /\
    images s' = images s ++ frameNames (captureCount s) steps.*2 /\
    captureCount s' = (captureCount s + length steps)%nat /\
    (forall final, last datas = Some final ->
       lastFrameIs (serve w (captureRequests sessionId steps)) s' final).
Proof.
  intros Hs Hdir Hfetch. revert w s Hs Hdir Hfetch. revert datas.
  induction steps as [|[net now] steps IH]; intros datas w s Hs Hdir Hfetch Hfirst Hchanging.
  - apply Forall2_nil_inv_l in Hfetch as ->. exists s. cbn.
    rewrite app_nil_r, Nat.add_0_r. repeat split; try done.
  - apply Forall2_cons_inv_l in Hfetch as (data & datas' & Hf & Hfetch & ->).
    cbn [fst] in Hf. cbn [captureRequests map serve handle fst snd].
    destruct (capture_stored_dir sessionId net now w s data Hs Hf Hfirst Hdir)
      as (Hs1 & Hdir1 & Hlast1).
    destruct (capture sessionId net now w) as [w1 response]. cbn [fst] in *.
    set (s1 := recordCapture s (imageName (captureCount s) now)) in *.
    destruct Hchanging as [Hne Hchanging].
    destruct (IH datas' w1 s1 Hs1 Hdir1) as (s' & Hs' & Hurl & Hsd & Himages & Hcount & Hfinal).
    + exact Hfetch.
    + destruct datas' as [|d2 datas']; [exact I|].
      unfold lastFrameDiffers. destruct Hlast1 as (l & -> & Hfile).
      exists data. split; [exact Hfile | exact Hne].
    + exact Hchanging.
    + exists s'. split; [exact Hs'|]. split; [exact Hurl|]. split; [exact Hsd|]. split.
      * rewrite Himages. unfold s1, recordCapture. cbn [images captureCount fmap list_fmap snd
          frameNames]. by rewrite <- app_assoc.
      * split.
        -- rewrite Hcount. unfold s1, recordCapture. cbn [captureCount length]. lia.
        -- intros final Hlast. destruct datas' as [|d2 datas'].
           ++ cbn in Hlast. injection Hlast as <-.
              apply Forall2_nil_inv_r in Hfetch as ->. cbn in Hs'.
              assert (s' = s1) as -> by congruence. exact Hlast1.
           ++ apply Hfinal. exact Hlast.
Qed.

End ChangingCaptures.

(** X6.  When each capture of a run fetches bytes that differ from the
    bytes fetched just before (the first from the last stored frame), as
    with an image that alternates between two states, every capture stores
    a frame: the frame sequence gains one name per capture, in order, with
    consecutive indices, and the counter increases by the number of
    captures. *)
Theorem changing_captures_all_stored `{Runtime} sessionId steps datas w s :
  sessions w !! sessionId = Some s ->
  is_Some (disk w !! sessionDir s) ->
  Forall2 (fun step data => fetchImage step.1 (url s) = Ok data) steps datas ->
  match datas with
  | first :: _ => lastFrameDiffers w s first
  | [] => True
  end ->
  changing datas ->
  exists s',
    sessions (serve w (captureRequests sessionId steps)) !! sessionId = Some s' /\
    images s' = images s ++ frameNames (captureCount s) steps.*2 /\
    captureCount s' = (captureCount s + length steps)%nat /\
    length (images s') = (length (images s) + length steps)%nat.
Proof.
  intros Hs Hdir Hfetch Hfirst Hchanging.
  destruct (serve_changing sessionId steps datas w s Hs Hdir Hfetch Hfirst Hchanging)
    as (s' & Hs' & _ & _ & Himages & Hcount & _).
  exists s'. split; [exact Hs'|]. split; [exact Himages|]. split; [exact Hcount|].
  rewrite Himages, length_app. f_equal.
  clear. generalize (captureCount s). induction steps as [|step steps IH]; intros count;
    cbn; [reflexivity | by rewrite IH].
Qed.

Lemma changing_captures_all_stored_witness :
  let steps := [(origin_serves frame_A, 1700000030000);
                (origin_serves frame_B, 1700000060000);
                (origin_serves frame_A, 1700000090000);
                (origin_serves frame_B, 1700000120000)] in
  exists s',
    sessions (@serve test_runtime started_world (captureRequests "s1" steps)) !! "s1"%string
      = Some s' /\
    captureCount s' = 4%nat /\
    images s' = ["image_00000_1700000030000.png"; "image_00001_1700000060000.png";
                 "image_00002_1700000090000.png"; "image_00003_1700000120000.png"]%string.
Proof.
  intros steps.
  destruct (@changing_captures_all_stored test_runtime "s1" steps
              [frame_A; frame_B; frame_A; frame_B] started_world _ started_world_session)
    as (s' & Hs' & Himages & Hcount & _).
  - apply (bool_decide_eq_true_1 _). vm_compute. reflexivity.
  - repeat constructor.
  - exact I.
  - cbn. repeat split; discriminate.
  - exists s'. split; [exact Hs'|]. split; [exact Hcount|].
    rewrite Himages. vm_compute. reflexivity.
Defined.

(** ** What a capture writes *)

(** X7.  A capture at a clock reading later than the timestamps of the
    files of the session's directory overwrites no file: every file on
    disk, in any directory, other than the animation keeps its content. *)
Theorem capture_overwrites_no_frame `{Runtime} sessionId (net : Network) now w s :
  sessions w !! sessionId = Some s ->
  0 <= now ->
  (forall f t, is_Some (fs_file (disk w) (sessionDir s) f) ->
               getTimestamp f = Some t -> t < now) ->
  forall dir f data,
    f ≠ "timelapse.gif"%string ->
    fs_file (disk w) dir f = Some data ->
    fs_file (disk (capture sessionId net now w).1) dir f = Some data.
Proof.
  intros Hs Hnow Hearlier dir f data Hgif Hfile.
  generalize (capture_path sessionId net now w).
  generalize (capture sessionId net now w).1 (capture sessionId net now w).2.
  intros w' response Hp.
  destruct Hp as [Hnone|s0 m Hs0|s0 d0 Hs0 Hf Hl|s0 d0 fs1 r0 Hs0 Hf Hw s' Hr]; try exact Hfile.
  assert (s0 = s) as -> by congruence. cbn [disk].
  rewrite generateGif_file by exact Hgif.
  rewrite (fs_file_writeFile _ _ _ _ _ _ _ Hw).
  case_bool_decide as Hsame; [|exact Hfile]. destruct Hsame as [-> ->].
  exfalso. apply (Z.lt_irrefl now), (Hearlier (imageName (captureCount s) now)).
  - rewrite Hfile. eauto.
  - by apply getTimestamp_imageName.
Qed.

Lemma capture_overwrites_no_frame_witness :
  fs_file (disk (@capture test_runtime "s1" (origin_serves frame_A) 1700000030000
                   resumed_world).1)
    "captures/example_com_cam_png_9e107d9d" "image_00000_900.png" = Some frame_B.
Proof.
  assert (sessions resumed_world !! "s1"%string =
          Some {| url := camera_url; dirName := "example_com_cam_png_9e107d9d";
                  sessionDir := "captures/example_com_cam_png_9e107d9d";
                  images := ["image_00000_900.png"; "image_00001_1000.png";
                             "image_00000_2000.png"]%string;
                  captureCount := 3 |}) as Hs by (vm_compute; reflexivity).
  apply (@capture_overwrites_no_frame test_runtime "s1" (origin_serves frame_A)
           1700000030000 resumed_world _ Hs); [lia | | discriminate | vm_compute; reflexivity].
  intros f t Hf Ht. cbn [sessionDir] in Hf.
  assert (forall name, is_Some (fs_file (disk resumed_world)
                                  "captures/example_com_cam_png_9e107d9d" name) ->
            name ∈ ["image_00001_1000.png"; "image_00000_2000.png"; "image_00000_900.png";
                    "metadata.json"; "timelapse.gif"]%string) as Hfiles.
  { intros name [data Hname]. unfold fs_file in Hname.
    destruct (disk resumed_world !! "captures/example_com_cam_png_9e107d9d"%string)
      as [d|] eqn:Hd; [|discriminate Hname].
    cbn [mbind option_bind] in Hname.
    assert (d = list_to_map
                  [("image_00001_1000.png"%string, frame_A);
                   ("image_00000_2000.png"%string, frame_B);
                   ("image_00000_900.png"%string, frame_B);
                   ("metadata.json"%string, list_byte_of_string "{}");
                   ("timelapse.gif"%string, frame_A)]) as ->.
    { apply (inj Some). rewrite <- Hd. apply (bool_decide_eq_true_1 _). vm_compute. reflexivity. }
    apply elem_of_list_to_map_2 in Hname.
    apply (list_elem_of_fmap_2 fst) in Hname. exact Hname. }
  apply Hfiles in Hf.
  repeat (apply elem_of_cons in Hf as [-> | Hf]);
    try (vm_compute in Ht; injection Ht as <-; lia);
    try (vm_compute in Ht; discriminate Ht).
  apply elem_of_nil in Hf. destruct Hf.
Defined.

(** X8.  A capture never stores a frame with the bytes of the frame stored
    last: when the frame sequence of the session grows, it grows by one
    name, and the file of that name holds the fetched bytes, which differ
    from those of the previously last frame. *)
Theorem capture_stores_only_changes `{Runtime} sessionId (net : Network) now w s previous s' :
  sessions w !! sessionId = Some s ->
  lastFrameIs w s previous ->
  sessions (capture sessionId net now w).1 !! sessionId = Some s' ->
  images s' ≠ images s ->
  exists data,
    fetchImage net (url s) = Ok data /\
    images s' = images s ++ [imageName (captureCount s) now] /\
    fs_file (disk (capture sessionId net now w).1) (sessionDir s)
      (imageName (captureCount s) now) = Some data /\
    data ≠ previous.
Proof.
  intros Hs Hprevious. destruct (fetchImage net (url s)) as [data|message] eqn:Hf.
  - destruct (decide (data = previous)) as [-> | Hne].
    + rewrite (capture_duplicate _ _ _ _ _ _ Hs Hf Hprevious). cbn [fst].
      intros Hs' Himages. congruence.
    + assert (lastFrameDiffers w s data) as Hd.
      { unfold lastFrameDiffers. destruct Hprevious as (l & -> & Hfile). eauto. }
      assert (is_Some (disk w !! sessionDir s)) as Hdir.
      { destruct Hprevious as (l & _ & Hfile). by eapply fs_file_dir. }
      destruct (capture_stored_dir sessionId net now w s data Hs Hf Hd Hdir)
        as (Hs1 & _ & (l & Hl & Hfile)).
      intros Hs' _. rewrite Hs1 in Hs'. injection Hs' as <-.
      exists data. split; [reflexivity|]. split; [reflexivity|]. split; [|exact Hne].
      unfold recordCapture in Hl, Hfile. cbn [images sessionDir] in Hl, Hfile.
      rewrite last_snoc in Hl. injection Hl as <-. exact Hfile.
  - rewrite (capture_fetch_failed _ _ _ _ _ _ Hs Hf). cbn [fst].
    intros Hs' Himages. congruence.
Qed.

Lemma capture_stores_only_changes_witness :
  exists data,
    fetchImage (origin_serves frame_B) camera_url = Ok data /\ data ≠ frame_A.
Proof.
  assert (sessions (@capture test_runtime "s1" (origin_serves frame_B) 1700000060000
                      captured_world).1 !! "s1"%string
          = Some {| url := camera_url; dirName := "example_com_cam_png_9e107d9d";
                    sessionDir := "captures/example_com_cam_png_9e107d9d";
                    images := ["image_00000_1700000030000.png";
                               "image_00001_1700000060000.png"]%string;
                    captureCount := 2 |}) as Hs' by (vm_compute; reflexivity).
  assert (lastFrameIs captured_world
            {| url := camera_url; dirName := "example_com_cam_png_9e107d9d";
               sessionDir := "captures/example_com_cam_png_9e107d9d";
               images := ["image_00000_1700000030000.png"%string]; captureCount := 1 |}
            frame_A) as Hprevious.
  { exists "image_00000_1700000030000.png"%string. split; vm_compute; reflexivity. }
  destruct (@capture_stores_only_changes test_runtime "s1" (origin_serves frame_B)
              1700000060000 captured_world _ frame_A _ captured_world_session Hprevious Hs'
              ltac:(discriminate)) as (data & Hf & _ & _ & Hne).
  exists data. split; [exact Hf | exact Hne].
Defined.

(** ** Queries *)

(** X9.  The session query agrees with the answers of the handlers that
    change the session: after a capture that answered with a frame count and
    a latest frame, and after a start that answered with the number of
    existing frames, the query reports the same count (and latest frame).  An
    unknown session is answered with 404. *)
Theorem sessionInfo_agrees `{Runtime} sessionId (w : World) :
  (sessions w !! sessionId = None ->
   sessionInfo sessionId w = ErrorResponse 404 "Session not found") /\
  (forall (net : Network) now s success imageCount latestImage duplicate,
     sessions w !! sessionId = Some s ->
     (capture sessionId net now w).2
       = CaptureResponse success imageCount latestImage duplicate ->
     sessionInfo sessionId (capture sessionId net now w).1
       = SessionResponse (url s) (dirName s) imageCount latestImage) /\
  (forall target now directory existingImages continuing,
     (start (Some target) sessionId now w).2
       = Some (StartResponse sessionId directory existingImages continuing) ->
     exists latestImage,
       sessionInfo sessionId (start (Some target) sessionId now w).1
         = SessionResponse target directory existingImages latestImage).
Proof.
  split; [|split].
  - intros Hnone. unfold sessionInfo. by rewrite Hnone.
  - intros net now s success imageCount latestImage duplicate Hs.
    generalize (capture_path sessionId net now w).
    generalize (capture sessionId net now w).1 (capture sessionId net now w).2.
    intros w' response Hp Hresponse.
    destruct Hp as [Hnone|s0 m Hs0|s0 d0 Hs0 Hf Hl|s0 d0 fs1 r0 Hs0 Hf Hw s' Hr];
      try discriminate Hresponse.
    + assert (s0 = s) as -> by congruence. injection Hresponse as <- <- <- <-.
      unfold sessionInfo. by rewrite Hs.
    + assert (s0 = s) as -> by congruence.
      destruct Hr as [-> | [m ->]]; [|discriminate Hresponse].
      injection Hresponse as <- <- <- <-.
      unfold sessionInfo. cbn [sessions]. rewrite lookup_insert_eq.
      unfold s', recordCapture. cbn [url dirName images]. by rewrite last_snoc.
  - intros target now directory existingImages continuing Hresponse.
    destruct (decide (target = EmptyString)) as [-> | Hurl]; [discriminate Hresponse|].
    destruct (start_disk target sessionId now w Hurl) as (fs' & _ & _ & Hsessions & Hr).
    rewrite Hr in Hresponse. injection Hresponse as <- <- _.
    eexists. unfold sessionInfo. rewrite Hsessions, lookup_insert_eq.
    cbn [url dirName images]. by rewrite loadExistingSession_count.
Qed.

Lemma sessionInfo_agrees_witness :
  sessionInfo "nobody" started_world = ErrorResponse 404 "Session not found".
Proof.
  destruct (@sessionInfo_agrees test_runtime "nobody" started_world) as [Hunknown _].
  apply Hunknown. vm_compute. reflexivity.
Defined.

(** ** Starting a session *)

(** X10.  A start without a URL, or with an empty one, answers 400 and
    changes nothing.  A start with a URL that answers has registered the
    session under the given identifier with the URL and the URL's
    directory, which exists then; it has left every other session as it is,
    and it reports that it continues exactly when the directory holds a
    recognized frame file. *)
Theorem start_registers `{Runtime} sessionId now (w : World) :
  start None sessionId now w = (w, Some (ErrorResponse 400 "URL is required")) /\
  start (Some EmptyString) sessionId now w = (w, Some (ErrorResponse 400 "URL is required")) /\
  (forall target response,
     target ≠ EmptyString ->
     (start (Some target) sessionId now w).2 = Some response ->
     let dir := path_join "captures" (urlToDirectory target) in
     let w' := (start (Some target) sessionId now w).1 in
     (exists s,
        sessions w' !! sessionId = Some s /\ url s = target /\
        dirName s = urlToDirectory target /\ sessionDir s = dir /\
        is_Some (disk w' !! dir) /\
        response = StartResponse sessionId (urlToDirectory target) (captureCount s)
                     (bool_decide (frameFiles (disk w) dir ≠ ∅))) /\
     (forall other, other ≠ sessionId -> sessions w' !! other = sessions w !! other)).
Proof.
  split; [reflexivity|]. split; [reflexivity|].
  intros target response Hurl Hresponse dir w'.
  destruct (start_disk target sessionId now w Hurl) as (fs' & Hsave & Hdisk & Hsessions & Hr).
  fold dir in Hsave, Hsessions, Hr. fold w' in Hdisk, Hsessions.
  rewrite Hr in Hresponse. injection Hresponse as <-. split.
  - eexists. split; [rewrite Hsessions; apply lookup_insert_eq|].
    cbn [url dirName sessionDir captureCount].
    split; [reflexivity|]. split; [reflexivity|]. split; [reflexivity|]. split.
    + rewrite Hdisk. unfold saveMetadata in Hsave.
      destruct (fs_access _ _ _).
      * injection Hsave as <-. apply ensureDir_is_Some.
      * apply (fs_writeFile_dirs _ _ _ _ _ _ Hsave), ensureDir_is_Some.
    + do 2 f_equal.
      rewrite loadExistingSession_size, <- Hdisk. unfold w'.
      rewrite start_frameFiles by exact Hurl.
      destruct (decide (frameFiles (disk w) dir = ∅)) as [Hempty | Hne].
      * rewrite Hempty, bool_decide_eq_false_2 by auto. reflexivity.
      * rewrite bool_decide_eq_true_2 by exact Hne.
        apply Nat.ltb_lt.
        assert (size (frameFiles (disk w) dir) ≠ 0%nat) as Hsize.
        { intros Hz%size_empty_iff. apply Hne. by apply leibniz_equiv. }
        lia.
  - intros other Hother. rewrite Hsessions. by rewrite lookup_insert_ne.
Qed.

Lemma start_registers_witness :
  exists s,
    sessions (@start test_runtime (Some camera_url) "s1" 1700000000000 (boot resumed_disk)).1
      !! "s1"%string = Some s /\
    url s = camera_url /\ captureCount s = 3%nat.
Proof.
  destruct (@start_registers test_runtime "s1" 1700000000000 (boot resumed_disk))
    as (_ & _ & Hstart).
  destruct (Hstart camera_url
              (StartResponse "s1" (@urlToDirectory test_runtime camera_url) 3 true)
              ltac:(discriminate) ltac:(vm_compute; reflexivity))
    as [(s & Hs & Hurl & _ & _ & _ & Hr) _].
  exists s. split; [exact Hs|]. split; [exact Hurl|].
  exact (eq_sym (f_equal (fun r => match r with
                                   | StartResponse _ _ n _ => n
                                   | _ => O
                                   end) Hr)).
Defined.

(** ** Regenerating the animation *)

(** X11.  A regeneration request never changes a session and writes no
    file but the animation of the session's directory, whatever its
    outcome.  It answers 404 for an unknown session; for a known one it
    answers success when the assembly resolves, and when the assembly
    rejects it answers 500 with the fixed message [Failed to generate GIF]:
    the error's own message is not shown. *)
Theorem generate_gif_frame `{Runtime} sessionId speed (w : World) :
  let w' := (generate_gif sessionId speed w).1 in
  let response := (generate_gif sessionId speed w).2 in
  sessions w' = sessions w /\
  (forall dir name,
     name ≠ "timelapse.gif"%string -> fs_file (disk w') dir name = fs_file (disk w) dir name) /\
  (forall dir, is_Some (disk w' !! dir) <-> is_Some (disk w !! dir)) /\
  (sessions w !! sessionId = None ->
   w' = w /\ response = ErrorResponse 404 "Session not found") /\
  (forall s,
     sessions w !! sessionId = Some s ->
     (forall artifact,
        (generateGif (disk w) (sessionDir s) (images s) (gifDelay speed)).2 = Ok artifact ->
        response = GenerateResponse true) /\
     (forall message,
        (generateGif (disk w) (sessionDir s) (images s) (gifDelay speed)).2 = Err message ->
        response = ErrorResponse 500 "Failed to generate GIF")).
Proof.
  intros w' response. subst w' response. unfold generate_gif.
  destruct (sessions w !! sessionId) as [s|] eqn:Hs.
  - pose proof (generateGif_file (disk w) (sessionDir s) (images s) (gifDelay speed)) as Hfile.
    pose proof (generateGif_dirs (disk w) (sessionDir s) (images s) (gifDelay speed)) as Hdirs.
    assert (forall s0, Some s = Some s0 -> s0 = s) as Hinj by (intros s0 [= <-]; reflexivity).
    destruct (generateGif (disk w) (sessionDir s) (images s) (gifDelay speed))
      as [fs' [g|m]] eqn:Hg; cbn [fst snd sessions disk] in *.
    + split; [reflexivity|]. split; [exact Hfile|]. split; [exact Hdirs|].
      split; [discriminate|]. intros s0 ->%Hinj. rewrite Hg. cbn [snd].
      split; [reflexivity | discriminate].
    + split; [reflexivity|]. split; [exact Hfile|]. split; [exact Hdirs|].
      split; [discriminate|]. intros s0 ->%Hinj. rewrite Hg. cbn [snd].
      split; [discriminate | reflexivity].
  - cbn [fst snd]. split; [reflexivity|]. split; [reflexivity|]. split; [reflexivity|].
    split; [done|]. discriminate.
Qed.

Lemma generate_gif_frame_witness :
  (@generate_gif test_runtime "nobody" None started_world).2
    = ErrorResponse 404 "Session not found".
Proof.
  destruct (@generate_gif_frame test_runtime "nobody" None started_world)
    as (_ & _ & _ & Hunknown & _).
  apply Hunknown. vm_compute. reflexivity.
Defined.

(** ** The delay at the edges *)

Lemma Qfloor_unit (x : Q) : (0 <= x)%Q -> (x < 1)%Q -> Qfloor x = 0.
Proof.
  intros H0 H1.
  assert (0 <= Qfloor x) as Hlo by (change 0 with (Qfloor 0); by apply Qfloor_resp_le).
  assert (Qfloor x < 1) as Hhi.
  { rewrite Zlt_Qlt. eapply Qle_lt_trans; [apply Qfloor_le | exact H1]. }
  lia.
Qed.

(** X12.  A missing speed, and a speed of zero, give the base delay of 500.
    For positive speeds the delay is never negative and never grows when the
    speed grows; from a speed above 1000 on it is 0. *)
Theorem gifDelay_edges :
  gifDelay None = 500 /\
  (forall q : Q, (q == 0)%Q -> gifDelay (Some q) = 500) /\
  (forall m : Q, (0 < m)%Q -> 0 <= gifDelay (Some m)) /\
  (forall m : Q, (1000 < m)%Q -> gifDelay (Some m) = 0) /\
  (forall m1 m2 : Q, (0 < m1)%Q -> (m1 <= m2)%Q -> gifDelay (Some m2) <= gifDelay (Some m1)).
Proof.
  assert (forall m : Q, (0 < m)%Q -> (0 <= 500 / m)%Q) as Hpos.
  { intros m Hm. apply Qle_shift_div_l; [exact Hm|]. lra. }
  split; [reflexivity|]. split; [|split; [|split]].
  - intros q Hq. unfold gifDelay. apply Qeq_eq_bool in Hq. rewrite Hq. reflexivity.
  - intros m Hm. rewrite (gifDelay_positive m Hm). change 0 with (Qfloor 0).
    apply Qfloor_resp_le. specialize (Hpos m Hm). lra.
  - intros m Hm. assert (0 < m)%Q as Hm0 by lra. rewrite (gifDelay_positive m Hm0).
    apply Qfloor_unit; [specialize (Hpos m Hm0); lra|].
    assert (500 / m < 1 # 2)%Q; [|lra].
    apply Qlt_shift_div_r; [exact Hm0 | lra].
  - intros m1 m2 Hm1 Hle. assert (0 < m2)%Q as Hm2 by lra.
    rewrite (gifDelay_positive m1 Hm1), (gifDelay_positive m2 Hm2).
    apply Qfloor_resp_le. apply Qplus_le_l.
    apply Qle_shift_div_r; [exact Hm2|].
    assert (500 / m1 * m1 == 500)%Q as Heq by (field; lra).
    specialize (Hpos m1 Hm1). revert Heq Hpos. generalize (500 / m1)%Q.
    intros x Heq Hx. nra.
Qed.

Lemma gifDelay_edges_witness :
  gifDelay (Some (0 # 7)) = 500 /\ gifDelay (Some 1001%Q) = 0 /\
  gifDelay (Some 4%Q) <= gifDelay (Some 3%Q).
Proof.
  destruct gifDelay_edges as (_ & Hzero & _ & Hfast & Hmono).
  split; [apply Hzero; reflexivity|]. split; [apply Hfast; reflexivity|].
  apply Hmono; [reflexivity | discriminate].
Defined.

(** ** The outcomes of an assembly *)

Section AssemblyOutcomes.
Context `{Runtime}.

Lemma addFrames_prefix fs dir width height names previous frames :
  frames `prefix_of` (addFrames fs dir width height names previous frames).1.
Proof.
  revert previous frames. induction names as [|name names IH]; intros previous frames;
    cbn [addFrames]; [reflexivity|].
  destruct (match previous with
            | Some p => imagesAreIdentical fs dir name p
            | None => false
            end); [apply IH|].
  destruct (sharp_input fs dir name) as [data|]; [|reflexivity].
  destruct (sharp_raw width height data) as [raw|]; [|reflexivity].
  etransitivity; [|apply IH]. by apply prefix_app_r.
Qed.

(** The disk after an assembly: untouched, or with the animation written. *)
Lemma generateGif_disk fs dir names delay :
  (generateGif fs dir names delay).1 = fs \/
  exists width height,
    let loop := addFrames fs dir width height names None [] in
    fs_writeFile fs dir "timelapse.gif" (gif_stream (encoded width height delay loop))
      = Ok (generateGif fs dir names delay).1 /\
    is_ok (generateGif fs dir names delay).2 = is_ok loop.2.
Proof.
  unfold generateGif. destruct names as [|firstImage rest]; [by left|].
  destruct (sharp_input fs dir firstImage) as [firstData|] eqn:Hr; [|by left].
  destruct (sharp_metadata firstData) as [[width height]|]; [|by left].
  right. exists width, height. cbv zeta.
  set (loop := addFrames fs dir width height (firstImage :: rest) None []).
  apply sharp_input_file, fs_file_dir in Hr.
  destruct (fs_writeFile_is_ok fs dir "timelapse.gif"
              (gif_stream (encoded width height delay loop)) Hr) as [fs1 Hw].
  rewrite Hw. destruct (loop.2); split; reflexivity.
Qed.

Lemma generateGif_keeps_files fs dir names delay dir' f :
  is_Some (fs_file fs dir' f) ->
  is_Some (fs_file (generateGif fs dir names delay).1 dir' f).
Proof.
  intros Hf. destruct (generateGif_disk fs dir names delay) as [-> | (wd & ht & Hw & _)];
    [exact Hf|].
  rewrite (fs_file_writeFile _ _ _ _ _ _ _ Hw). case_bool_decide; [eauto | exact Hf].
Qed.

End AssemblyOutcomes.

(** X13.  An assembly whose first image does not exist or cannot be decoded
    fails before the output is opened and leaves the disk untouched.  An assembly
    that fails later leaves an animation that the encoder did not finish.  A
    successful assembly returns the path of [timelapse.gif] in the
    directory; the animation is finished, loops forever, has quality 10 and
    the requested delay, and holds at least one frame. *)
Theorem generateGif_outcomes `{Runtime} (fs : FS) (dir : string) (names : list string)
    (delay : Z) :
  let fs' := (generateGif fs dir names delay).1 in
  let result := (generateGif fs dir names delay).2 in
  (forall first, head names = Some first -> fs_file fs dir first = None ->
     fs' = fs /\ exists message, result = Err message) /\
  (forall first data message,
     head names = Some first -> fs_file fs dir first = Some data ->
     sharp_metadata data = Err message ->
     fs' = fs /\ result = Err message) /\
  (forall message,
     result = Err message ->
     fs' = fs \/
     exists g, fs_file fs' dir "timelapse.gif" = Some (gif_stream g) /\
               gif_finished g = false) /\
  (forall p,
     result = Ok (Some p) ->
     p = path_join dir "timelapse.gif" /\
     exists g, fs_file fs' dir "timelapse.gif" = Some (gif_stream g) /\
               gif_finished g = true /\ gif_repeat g = 0 /\ gif_quality g = 10 /\
               gif_delay g = delay /\ gif_frames g ≠ []).
Proof.
  intros fs' result. subst fs' result. split; [|split; [|split]].
  - intros first Hhead Hnone. destruct names as [|x rest]; [discriminate Hhead|].
    injection Hhead as ->. unfold generateGif, sharp_input. rewrite Hnone. eauto.
  - intros first data message Hhead Hfile Hmeta. destruct names as [|x rest];
      [discriminate Hhead|].
    injection Hhead as ->. unfold generateGif, sharp_input. by rewrite Hfile, Hmeta.
  - intros message Hr.
    destruct (generateGif_disk fs dir names delay) as [Hsame | (width & height & Hw & Hok)];
      [by left|].
    right. eexists. split.
    + rewrite (fs_file_writeFile _ _ _ _ _ _ _ Hw). by rewrite bool_decide_eq_true_2.
    + cbn [encoded gif_finished]. rewrite <- Hok, Hr. reflexivity.
  - intros p Hr.
    destruct (generateGif fs dir names delay) as [fs' r] eqn:Hg. cbn [fst snd] in *. subst r.
    destruct (generateGif_artifact _ _ _ _ _ _ Hg) as (width & height & Hloop & Hfile & ->).
    split; [reflexivity|]. eexists. split; [exact Hfile|].
    cbn [encoded gif_finished gif_repeat gif_quality gif_delay gif_frames].
    rewrite Hloop. repeat (split; [reflexivity|]).
    unfold generateGif in Hg. destruct names as [|first rest]; [discriminate Hg|].
    cbn [addFrames] in Hloop |- *.
    destruct (sharp_input fs dir first) as [data|]; [|discriminate Hloop].
    destruct (sharp_raw width height data) as [raw|]; [|discriminate Hloop].
    pose proof (addFrames_prefix fs dir width height rest (Some first) ([] ++ [raw]))
      as [tail Htail].
    rewrite Htail. discriminate.
Qed.

Lemma generateGif_outcomes_witness :
  (@generateGif test_runtime abba_disk "captures/abba" ["missing.png"%string] 500).1
    = abba_disk /\
  is_ok (@generateGif test_runtime abba_disk "captures/abba" ["missing.png"%string] 500).2
    = false.
Proof.
  destruct (@generateGif_outcomes test_runtime abba_disk "captures/abba"
              ["missing.png"%string] 500) as (Hmissing & _).
  destruct (Hmissing "missing.png"%string eq_refl) as [Hfs [message Hr]].
  - vm_compute. reflexivity.
  - split; [exact Hfs | by rewrite Hr].
Defined.

(** ** What requests keep *)

Section Keeping.
Context `{Runtime}.

Lemma start_keeps_files target sessionId now w dir f :
  target ≠ EmptyString ->
  is_Some (fs_file (disk w) dir f) ->
  is_Some (fs_file (disk (start (Some target) sessionId now w).1) dir f).
Proof.
  intros Hurl Hf.
  destruct (start_disk target sessionId now w Hurl) as (fs' & Hsave & -> & _).
  unfold saveMetadata in Hsave. destruct (fs_access _ _ _).
  - injection Hsave as <-. by rewrite ensureDir_file.
  - rewrite (fs_file_writeFile _ _ _ _ _ _ _ Hsave).
    case_bool_decide; [eauto | by rewrite ensureDir_file].
Qed.

Lemma handle_keeps_files w r dir f :
  is_Some (fs_file (disk w) dir f) -> is_Some (fs_file (disk (handle w r).1) dir f).
Proof.
  intros Hf. destruct r as [body_url sessionId now|sessionId net now|sessionId|sessionId speed];
    cbn [handle].
  - destruct body_url as [target|]; [|exact Hf].
    destruct (decide (target = EmptyString)) as [-> | Hurl]; [exact Hf|].
    by apply start_keeps_files.
  - destruct (capture sessionId net now w) as [w' response] eqn:Hc. cbn [fst].
    pose proof (capture_path sessionId net now w) as Hp. rewrite Hc in Hp. cbn [fst snd] in Hp.
    destruct Hp as [Hnone|s0 m Hs0|s0 d0 Hs0 Hf0 Hl|s0 d0 fs1 r0 Hs0 Hf0 Hw s' Hr];
      try exact Hf.
    cbn [disk]. apply generateGif_keeps_files.
    rewrite (fs_file_writeFile _ _ _ _ _ _ _ Hw). case_bool_decide; [eauto | exact Hf].
  - exact Hf.
  - unfold generate_gif. destruct (sessions w !! sessionId) as [s|]; [|exact Hf].
    pose proof (generateGif_keeps_files (disk w) (sessionDir s) (images s) (gifDelay speed)
                  dir f Hf) as Hkeep.
    destruct (generateGif (disk w) (sessionDir s) (images s) (gifDelay speed)) as [fs' [g|m]];
      exact Hkeep.
Qed.

Lemma handle_keeps_session w r sessionId s :
  sessions w !! sessionId = Some s ->
  keepsSession sessionId r ->
  exists s',
    sessions (handle w r).1 !! sessionId = Some s' /\
    url s' = url s /\ dirName s' = dirName s /\ sessionDir s' = sessionDir s /\
    images s `prefix_of` images s' /\ (captureCount s <= captureCount s')%nat.
Proof.
  intros Hs Hkeep.
  assert (exists s', sessions w !! sessionId = Some s' /\
            url s' = url s /\ dirName s' = dirName s /\ sessionDir s' = sessionDir s /\
            images s `prefix_of` images s' /\ (captureCount s <= captureCount s')%nat) as Hsame
    by (exists s; repeat split; done || reflexivity).
  destruct r as [body_url sid now|sid net now|sid|sid speed]; cbn [handle].
  - destruct body_url as [target|]; [|exact Hsame].
    destruct (decide (target = EmptyString)) as [-> | Hurl]; [exact Hsame|].
    destruct (start_disk target sid now w Hurl) as (fs' & _ & _ & Hsessions & _).
    rewrite Hsessions. cbn in Hkeep. by rewrite lookup_insert_ne.
  - destruct (capture sid net now w) as [w' response] eqn:Hc. cbn [fst].
    pose proof (capture_path sid net now w) as Hp. rewrite Hc in Hp. cbn [fst snd] in Hp.
    destruct Hp as [Hnone|s0 m Hs0|s0 d0 Hs0 Hf0 Hl|s0 d0 fs1 r0 Hs0 Hf0 Hw s' Hr];
      try exact Hsame.
    cbn [sessions]. destruct (decide (sid = sessionId)) as [-> | Hne].
    + assert (s0 = s) as -> by congruence. exists s'. rewrite lookup_insert_eq.
      unfold s', recordCapture. cbn [url dirName sessionDir images captureCount].
      repeat split; try reflexivity; [by apply prefix_app_r | lia].
    + by rewrite lookup_insert_ne.
  - exact Hsame.
  - unfold generate_gif. destruct (sessions w !! sid) as [s0|]; [|exact Hsame].
    destruct (generateGif (disk w) (sessionDir s0) (images s0) (gifDelay speed))
      as [fs' [g|m]]; exact Hsame.
Qed.

Lemma handle_framesOnDisk w r : framesOnDisk w -> framesOnDisk (handle w r).1.
Proof.
  intros Hw.
  assert (forall sessionId s f,
            sessions w !! sessionId = Some s -> f ∈ images s ->
            f ∈ frameFiles (disk (handle w r).1) (sessionDir s)) as Hold.
  { intros sessionId s f Hs Hf. apply elem_of_frameFiles.
    destruct (proj1 (elem_of_frameFiles _ _ _) (Hw _ _ _ Hs Hf)) as [Hframe Hfile].
    split; [exact Hframe | by apply handle_keeps_files]. }
  destruct r as [body_url sid now|sid net now|sid|sid speed].
  - cbn [handle] in *. destruct body_url as [target|]; [|exact Hw].
    destruct (decide (target = EmptyString)) as [-> | Hurl]; [exact Hw|].
    destruct (start_disk target sid now w Hurl) as (fs' & _ & Hdisk & Hsessions & _).
    intros sessionId s f. rewrite Hsessions.
    destruct (decide (sessionId = sid)) as [-> | Hne].
    + rewrite lookup_insert_eq. intros [= <-]. cbn [images sessionDir]. rewrite Hdisk.
      by rewrite loadExistingSession_elem_of.
    + rewrite lookup_insert_ne by done. apply (Hold sessionId).
  - cbn [handle] in *. destruct (capture sid net now w) as [w' response] eqn:Hc.
    cbn [fst] in *.
    pose proof (capture_path sid net now w) as Hp. rewrite Hc in Hp. cbn [fst snd] in Hp.
    destruct Hp as [Hnone|s0 m Hs0|s0 d0 Hs0 Hf0 Hl|s0 d0 fs1 r0 Hs0 Hf0 Hwr s' Hr];
      try exact Hw.
    intros sessionId s f. cbn [sessions]. destruct (decide (sessionId = sid)) as [-> | Hne].
    + rewrite lookup_insert_eq. intros [= <-]. unfold s', recordCapture.
      cbn [images sessionDir]. intros [Hf | Hf]%elem_of_app.
      * by apply (Hold sid s0).
      * apply list_elem_of_singleton in Hf as ->. apply elem_of_frameFiles.
        split; [apply isFrameFile_imageName|]. cbn [disk].
        rewrite generateGif_file by apply imageName_not_gif.
        rewrite (fs_file_writeFile _ _ _ _ _ _ _ Hwr).
        rewrite bool_decide_eq_true_2; eauto.
    + rewrite lookup_insert_ne by done. apply (Hold sessionId).
  - exact Hw.
  - intros sessionId s f Hs. apply (Hold sessionId). revert Hs. cbn [handle].
    unfold generate_gif. destruct (sessions w !! sid) as [s0|]; [|done].
    destruct (generateGif (disk w) (sessionDir s0) (images s0) (gifDelay speed))
      as [fs' [g|m]]; done.
Qed.

End Keeping.

(** X14.  No request removes a file or a directory: what exists on disk
    before a sequence of requests exists after it. *)
Theorem nothing_is_deleted `{Runtime} (requests : list Request) (w : World) :
  (forall dir f,
     is_Some (fs_file (disk w) dir f) -> is_Some (fs_file (disk (serve w requests)) dir f)) /\
  (forall dir, is_Some (disk w !! dir) -> is_Some (disk (serve w requests) !! dir)).
Proof.
  revert w. induction requests as [|r requests IH]; intros w; [by split|].
  cbn [serve]. destruct (IH (handle w r).1) as [IHfile IHdir]. split.
  - intros dir f Hf. by apply IHfile, handle_keeps_files.
  - intros dir Hdir. apply IHdir.
    destruct r as [body_url sessionId now|sessionId net now|sessionId|sessionId speed];
      cbn [handle].
    + destruct body_url as [target|]; [|exact Hdir].
      destruct (decide (target = EmptyString)) as [-> | Hurl]; [exact Hdir|].
      destruct (start_disk target sessionId now w Hurl) as (fs' & Hsave & -> & _).
      assert (is_Some (ensureDir (disk w)
                         (path_join "captures" (urlToDirectory target)) !! dir)) as Hdir'.
      { unfold ensureDir. destruct (disk w !! path_join _ _) eqn:Hd; [exact Hdir|].
        destruct (decide (dir = path_join "captures" (urlToDirectory target))) as [-> | Hne].
        - rewrite lookup_insert_eq. eauto.
        - by rewrite lookup_insert_ne. }
      unfold saveMetadata in Hsave. destruct (fs_access _ _ _).
      * by injection Hsave as <-.
      * by apply (fs_writeFile_dirs _ _ _ _ _ _ Hsave).
    + destruct (capture sessionId net now w) as [w' response] eqn:Hc. cbn [fst].
      pose proof (capture_path sessionId net now w) as Hp. rewrite Hc in Hp.
      cbn [fst snd] in Hp.
      destruct Hp as [Hnone|s0 m Hs0|s0 d0 Hs0 Hf0 Hl|s0 d0 fs1 r0 Hs0 Hf0 Hw s' Hr];
        try exact Hdir.
      cbn [disk]. apply generateGif_dirs. by apply (fs_writeFile_dirs _ _ _ _ _ _ Hw).
    + exact Hdir.
    + unfold generate_gif. destruct (sessions w !! sessionId) as [s|]; [|exact Hdir].
      pose proof (proj2 (generateGif_dirs (disk w) (sessionDir s) (images s)
                           (gifDelay speed) dir) Hdir) as Hkeep.
      destruct (generateGif (disk w) (sessionDir s) (images s) (gifDelay speed))
        as [fs' [g|m]]; exact Hkeep.
Qed.

Lemma nothing_is_deleted_witness :
  is_Some (fs_file (disk (@serve test_runtime (boot resumed_disk)
                            [PostStart (Some camera_url) "s1" 1700000000000;
                             PostCapture "s1" (origin_serves frame_A) 1700000030000;
                             PostGenerateGif "s1" (Some 2%Q)]))
             "captures/example_com_cam_png_9e107d9d" "image_00000_900.png").
Proof.
  apply (@nothing_is_deleted test_runtime). apply (bool_decide_eq_true_1 _).
  vm_compute. reflexivity.
Defined.

(** X15.  A session stays registered and is never rewound: through any
    requests that do not start a session under its identifier, its URL and
    directory stay the same, the frame sequence it had stays a prefix of the
    one it has, and its counter does not decrease. *)
Theorem sessions_only_grow `{Runtime} (requests : list Request) (w : World) sessionId s :
  sessions w !! sessionId = Some s ->
  Forall (keepsSession sessionId) requests ->
  exists s',
    sessions (serve w requests) !! sessionId = Some s' /\
    url s' = url s /\ dirName s' = dirName s /\ sessionDir s' = sessionDir s /\
    images s `prefix_of` images s' /\ (captureCount s <= captureCount s')%nat.
Proof.
  revert w s. induction requests as [|r requests IH]; intros w s Hs Hkeep.
  - exists s. repeat split; done || reflexivity.
  - apply Forall_cons in Hkeep as [Hr Hkeep]. cbn [serve].
    destruct (handle_keeps_session w r sessionId s Hs Hr)
      as (s1 & Hs1 & Hurl1 & Hdn1 & Hsd1 & Hpre1 & Hc1).
    destruct (IH (handle w r).1 s1 Hs1 Hkeep) as (s' & Hs' & Hurl & Hdn & Hsd & Hpre & Hc).
    exists s'. split; [exact Hs'|]. split; [congruence|]. split; [congruence|].
    split; [congruence|]. split; [by etransitivity | lia].
Qed.

Lemma sessions_only_grow_witness :
  exists s',
    sessions (@serve test_runtime captured_world
                [PostStart (Some camera_url) "s2" 1700000040000;
                 PostCapture "s1" (origin_serves frame_B) 1700000060000;
                 PostGenerateGif "s1" None]) !! "s1"%string = Some s' /\
    url s' = camera_url /\
    ["image_00000_1700000030000.png"%string] `prefix_of` images s'.
Proof.
  destruct (@sessions_only_grow test_runtime
              [PostStart (Some camera_url) "s2" 1700000040000;
               PostCapture "s1" (origin_serves frame_B) 1700000060000;
               PostGenerateGif "s1" None]
              captured_world "s1" _ captured_world_session)
    as (s' & Hs' & Hurl & _ & _ & Hprefix & _).
  - repeat constructor. discriminate.
  - exists s'. split; [exact Hs'|]. split; [exact Hurl | exact Hprefix].
Defined.

(** X16.  From the boot of the server and through every sequence of
    requests, every frame that a session lists is a file of the session's
    directory with a recognized frame name. *)
Theorem listed_frames_are_on_disk `{Runtime} (fs : FS) (requests : list Request) :
  framesOnDisk (serve (boot fs) requests).
Proof.
  assert (framesOnDisk (boot fs)) as Hboot.
  { intros sessionId s f Hs. cbn in Hs. by rewrite lookup_empty in Hs. }
  revert Hboot. generalize (boot fs). induction requests as [|r requests IH]; intros w Hw;
    [exact Hw|].
  cbn [serve]. by apply IH, handle_framesOnDisk.
Qed.

(** X17.  A frame stored by a capture is found when the URL is started
    again: the recognized frame files of the directory are those there were
    and the new one, and a new session for the URL lists the new frame,
    counts those files and reports that it continues. *)
Theorem stored_frame_is_resumed `{Runtime} sessionId (net : Network) now w s data :
  sessions w !! sessionId = Some s ->
  fetchImage net (url s) = Ok data ->
  lastFrameDiffers w s data ->
  is_Some (disk w !! sessionDir s) ->
  url s ≠ EmptyString ->
  sessionDir s = path_join "captures" (urlToDirectory (url s)) ->
  let name := imageName (captureCount s) now in
  let w' := (capture sessionId net now w).1 in
  frameFiles (disk w') (sessionDir s) = {[name]} ∪ frameFiles (disk w) (sessionDir s) /\
  forall sessionId2 now2,
    exists s2,
      sessions (start (Some (url s)) sessionId2 now2 w').1 !! sessionId2 = Some s2 /\
      name ∈ images s2 /\
      captureCount s2 = size ({[name]} ∪ frameFiles (disk w) (sessionDir s)) /\
      (start (Some (url s)) sessionId2 now2 w').2
        = Some (StartResponse sessionId2 (urlToDirectory (url s)) (captureCount s2) true).
Proof.
  intros Hs Hf Hd Hdir Hurl Hsd name w'.
  destruct (capture_stored sessionId net now w s data Hs Hf Hd Hdir) as (fs1 & Hw & Hw' & _).
  fold name in Hw, Hw'. fold w' in Hw'.
  assert (frameFiles (disk w') (sessionDir s)
          = {[name]} ∪ frameFiles (disk w) (sessionDir s)) as Hfiles.
  { apply set_eq. intros f. rewrite elem_of_union, elem_of_singleton, !elem_of_frameFiles.
    rewrite Hw'. cbn [disk].
    destruct (decide (f = "timelapse.gif"%string)) as [-> | Hgif].
    - split.
      + intros [Hframe _]. vm_compute in Hframe. discriminate Hframe.
      + intros [Hname | [Hframe _]].
        * symmetry in Hname. by apply imageName_not_gif in Hname.
        * vm_compute in Hframe. discriminate Hframe.
    - rewrite generateGif_file by exact Hgif.
      rewrite (fs_file_writeFile _ _ _ _ _ _ _ Hw).
      destruct (decide (f = name)) as [-> | Hne].
      + rewrite bool_decide_eq_true_2 by done. split; [by left|].
        intros _. split; [apply isFrameFile_imageName | eauto].
      + rewrite bool_decide_eq_false_2 by (intros [_ ?]; done). split; [by right|].
        intros [? | ?]; done. }
  split; [exact Hfiles|].
  intros sessionId2 now2.
  destruct (start_disk (url s) sessionId2 now2 w' Hurl) as (fs' & _ & Hdisk & Hsessions & Hr).
  rewrite <- Hsd in Hsessions, Hr.
  assert (frameFiles fs' (sessionDir s) = {[name]} ∪ frameFiles (disk w) (sessionDir s))
    as Hfiles'.
  { rewrite <- Hdisk, start_frameFiles by exact Hurl. exact Hfiles. }
  eexists. split; [rewrite Hsessions; apply lookup_insert_eq|].
  cbn [images captureCount]. split; [|split].
  - apply loadExistingSession_elem_of. rewrite Hfiles'.
    apply elem_of_union. left. by apply elem_of_singleton.
  - by rewrite loadExistingSession_size, Hfiles'.
  - rewrite Hr. do 2 f_equal. apply Nat.ltb_lt.
    rewrite loadExistingSession_size, Hfiles'.
    assert (size ({[name]} ∪ frameFiles (disk w) (sessionDir s)) ≠ 0%nat) as Hsize.
    { intros Hz%size_empty_iff.
      apply (not_elem_of_empty (C := gset string) name). rewrite <- Hz.
      apply elem_of_union. left. by apply elem_of_singleton. }
    lia.
Qed.

Lemma stored_frame_is_resumed_witness :
  let name := imageName 0 1700000030000 in
  exists s2,
    sessions (@start test_runtime (Some camera_url) "s2" 1700000090000
                (@capture test_runtime "s1" (origin_serves frame_A) 1700000030000
                   started_world).1).1 !! "s2"%string = Some s2 /\
    name ∈ images s2 /\ captureCount s2 = 1%nat.
Proof.
  intros name.
  assert (is_Some (disk started_world !! "captures/example_com_cam_png_9e107d9d"%string))
    as Hdir by (apply (bool_decide_eq_true_1 _); vm_compute; reflexivity).
  destruct (@stored_frame_is_resumed test_runtime "s1" (origin_serves frame_A) 1700000030000
              started_world _ frame_A started_world_session eq_refl I Hdir
              ltac:(discriminate) eq_refl) as [Hfiles Hresume].
  destruct (Hresume "s2"%string 1700000090000) as (s2 & Hs2 & Hname & Hcount & _).
  exists s2. split; [exact Hs2|]. split; [exact Hname|].
  rewrite Hcount. apply (bool_decide_eq_true_1 _). vm_compute. reflexivity.
Defined.

(** ** Sessions side by side *)

(** X18.  Two starts for the same URL give two sessions on the same
    directory that report the same number of existing frames; the second
    start leaves the first session as it is. *)
Theorem two_starts_share_directory `{Runtime} target sessionId1 now1 sessionId2 now2
    (w : World) :
  target ≠ EmptyString ->
  sessionId1 ≠ sessionId2 ->
  let w1 := (start (Some target) sessionId1 now1 w).1 in
  let w2 := (start (Some target) sessionId2 now2 w1).1 in
  exists s1 s2,
    sessions w2 !! sessionId1 = Some s1 /\ sessions w2 !! sessionId2 = Some s2 /\
    sessions w1 !! sessionId1 = Some s1 /\
    sessionDir s1 = sessionDir s2 /\ url s1 = url s2 /\
    captureCount s1 = captureCount s2 /\
    (forall f, f ∈ images s1 <-> f ∈ images s2).
Proof.
  intros Hurl Hne w1 w2.
  destruct (start_disk target sessionId1 now1 w Hurl) as (fs1 & _ & Hdisk1 & Hsessions1 & _).
  destruct (start_disk target sessionId2 now2 w1 Hurl) as (fs2 & _ & Hdisk2 & Hsessions2 & _).
  fold w1 in Hdisk1, Hsessions1. fold w2 in Hdisk2, Hsessions2.
  set (dir := path_join "captures" (urlToDirectory target)) in *.
  assert (frameFiles fs2 dir = frameFiles fs1 dir) as Hfiles.
  { rewrite <- Hdisk2, <- Hdisk1. unfold w2. by rewrite start_frameFiles. }
  eexists _, _. split.
  { rewrite Hsessions2, lookup_insert_ne by done. rewrite Hsessions1. apply lookup_insert_eq. }
  split; [rewrite Hsessions2; apply lookup_insert_eq|].
  split; [rewrite Hsessions1; apply lookup_insert_eq|].
  cbn [sessionDir url captureCount images].
  split; [reflexivity|]. split; [reflexivity|]. split.
  - by rewrite !loadExistingSession_size, Hfiles.
  - intros f. by rewrite !loadExistingSession_elem_of, Hfiles.
Qed.

Lemma two_starts_share_directory_witness :
  exists s1 s2,
    sessions (@start test_runtime (Some camera_url) "s2" 1700000090000 resumed_world).1
      !! "s1"%string = Some s1 /\
    sessions (@start test_runtime (Some camera_url) "s2" 1700000090000 resumed_world).1
      !! "s2"%string = Some s2 /\
    captureCount s1 = captureCount s2.
Proof.
  destruct (@two_starts_share_directory test_runtime camera_url "s1" 1700000000000
              "s2" 1700000090000 (boot resumed_disk) ltac:(discriminate) ltac:(discriminate))
    as (s1 & s2 & Hs1 & Hs2 & _ & _ & _ & Hcount & _).
  exists s1, s2. split; [exact Hs1|]. split; [exact Hs2 | exact Hcount].
Defined.

(** X19.  A capture is local to its session and its directory: every other
    session is left as it is, also one on the same directory, and no file of
    another directory changes. *)
Theorem capture_is_local `{Runtime} sessionId (net : Network) now (w : World) :
  let w' := (capture sessionId net now w).1 in
  (forall other, other ≠ sessionId -> sessions w' !! other = sessions w !! other) /\
  (forall s dir,
     sessions w !! sessionId = Some s -> dir ≠ sessionDir s -> disk w' !! dir = disk w !! dir) /\
  (sessions w !! sessionId = None -> w' = w).
Proof.
  intros w'. subst w'.
  generalize (capture_path sessionId net now w).
  generalize (capture sessionId net now w).1 (capture sessionId net now w).2.
  intros w' response Hp.
  destruct Hp as [Hnone|s0 m Hs0|s0 d0 Hs0 Hf0 Hl|s0 d0 fs1 r0 Hs0 Hf0 Hw s' Hr];
    try (split; [|split]; (reflexivity || (intros; reflexivity) || (intros; congruence))).
  split; [|split].
  - intros other Hother. cbn [sessions]. by rewrite lookup_insert_ne.
  - intros s dir Hs Hdir. assert (s0 = s) as -> by congruence. cbn [disk].
    assert (fs1 !! dir = disk w !! dir) as Hfs1.
    { unfold fs_writeFile in Hw. destruct (disk w !! sessionDir s); [|discriminate Hw].
      injection Hw as <-. by rewrite lookup_insert_ne. }
    subst s'. unfold recordCapture. cbn [images].
    destruct (generateGif_disk fs1 (sessionDir s)
                (images s ++ [imageName (captureCount s) now]) 500)
      as [-> | (wd & ht & Hgif & _)]; [exact Hfs1|].
    unfold fs_writeFile in Hgif. destruct (fs1 !! sessionDir s); [|discriminate Hgif].
    injection Hgif as <-. by rewrite lookup_insert_ne.
  - intros Hnone. congruence.
Qed.

Lemma capture_is_local_witness :
  (@capture test_runtime "nobody" (origin_serves frame_A) 1700000030000 started_world).1
    = started_world.
Proof.
  destruct (@capture_is_local test_runtime "nobody" (origin_serves frame_A) 1700000030000
              started_world) as (_ & _ & Hunknown).
  apply Hunknown. vm_compute. reflexivity.
Defined.

(** ** Frame names do not collide *)

Lemma parse_digits_of_zero fuel n acc :
  0 <= n < 10 ^ Z.of_nat (S fuel) ->
  Js.parse_digits 10 (Js.digits_of fuel n acc) (Some 0) = Js.parse_digits 10 acc (Some n).
Proof.
  revert n acc. induction fuel as [|fuel IH]; intros n acc Hn.
  - change (10 ^ Z.of_nat 1) with 10 in Hn.
    cbn [Js.digits_of Js.parse_digits]. rewrite Z.mod_small by lia.
    rewrite digit_value_digit_char by lia. f_equal.
  - cbn [Js.digits_of]. destruct (n / 10 =? 0) eqn:Hq.
    + apply Z.eqb_eq in Hq.
      assert (n < 10) by (apply Z.div_small_iff in Hq; lia).
      cbn [Js.parse_digits]. rewrite Z.mod_small by lia.
      rewrite digit_value_digit_char by lia. f_equal.
    + rewrite IH.
      * cbn [Js.parse_digits]. rewrite digit_value_digit_char by (apply Z.mod_pos_bound; lia).
        f_equal. f_equal. pose proof (Z.div_mod n 10). lia.
      * split; [apply Z.div_pos; lia|].
        apply Z.div_lt_upper_bound; [lia|].
        replace (Z.of_nat (S (S fuel))) with (Z.succ (Z.of_nat (S fuel))) in Hn by lia.
        rewrite Z.pow_succ_r in Hn by lia. lia.
Qed.

(** The padded index of a frame name reads back as the index. *)
Lemma parse_padded_index (count : nat) :
  Js.parse_digits 10 (Js.padStart (Js.String_of (Z.of_nat count)) 5 "0") None
    = Some (Z.of_nat count).
Proof.
  assert (0 <= Z.of_nat count) as Hn by lia.
  unfold Js.padStart. generalize (5 - String.length (Js.String_of (Z.of_nat count)))%nat.
  assert (Js.parse_digits 10 (Js.String_of (Z.of_nat count)) None = Some (Z.of_nat count)
          /\ Js.parse_digits 10 (Js.String_of (Z.of_nat count)) (Some 0)
             = Some (Z.of_nat count)) as [Hnone Hzero].
  { unfold Js.String_of. destruct (Z.of_nat count <? 0) eqn:Hneg;
      [apply Z.ltb_lt in Hneg; lia|].
    rewrite parse_digits_of, parse_digits_of_zero
      by (split; [exact Hn | by apply log2_fuel]).
    split; reflexivity. }
  intros [|k]; [exact Hnone|].
  change (Js.repeat_char "0" (S k) +:+ Js.String_of (Z.of_nat count))
    with (String "0" (Js.repeat_char "0" k +:+ Js.String_of (Z.of_nat count))).
  cbn [Js.parse_digits]. change (Js.digit_value 10 "0") with (Some 0).
  induction k as [|k IH]; [exact Hzero|].
  change (Js.repeat_char "0" (S k) +:+ Js.String_of (Z.of_nat count))
    with (String "0" (Js.repeat_char "0" k +:+ Js.String_of (Z.of_nat count))).
  cbn [Js.parse_digits]. change (Js.digit_value 10 "0") with (Some 0). exact IH.
Qed.

Lemma string_app_inv_r (a b r : string) : a +:+ r = b +:+ r -> a = b.
Proof.
  revert b. induction a as [|x a IH]; intros [|y b] Heq.
  - reflexivity.
  - exfalso. apply (f_equal String.length) in Heq.
    rewrite !string_length_app in Heq. cbn [String.length] in Heq. lia.
  - exfalso. apply (f_equal String.length) in Heq.
    rewrite !string_length_app in Heq. cbn [String.length] in Heq. lia.
  - change (String x (a +:+ r) = String y (b +:+ r)) in Heq.
    injection Heq as -> Heq. f_equal. by apply IH.
Qed.

(** X1.  The name of a frame determines the index and the time of the
    capture that wrote it: two captures write the same file name only when
    both the counter and the clock reading agree. *)
Theorem imageName_inj (count1 count2 : nat) (timestamp1 timestamp2 : Z) :
  0 <= timestamp1 -> 0 <= timestamp2 ->
  imageName count1 timestamp1 = imageName count2 timestamp2 ->
  count1 = count2 /\ timestamp1 = timestamp2.
Proof.
  intros H1 H2 Heq.
  assert (timestamp1 = timestamp2) as <-.
  { apply (inj Some). rewrite <- (getTimestamp_imageName count1 timestamp1 H1).
    rewrite Heq. by apply getTimestamp_imageName. }
  split; [|reflexivity]. unfold imageName in Heq.
  change ("image_" +:+ ?x = "image_" +:+ ?y) with
    (String "i" (String "m" (String "a" (String "g" (String "e" (String "_" x)))))
     = String "i" (String "m" (String "a" (String "g" (String "e" (String "_" y))))))
    in Heq.
  injection Heq as Heq. apply string_app_inv_r in Heq.
  apply Nat2Z.inj, (inj Some). by rewrite <- !parse_padded_index, Heq.
Qed.

Lemma imageName_inj_witness :
  imageName 3 1700000030000 ≠ imageName 3 1700000030001.
Proof.
  intros Heq. apply imageName_inj in Heq; [|lia|lia]. destruct Heq as [_ Heq]. lia.
Defined.
